(** * Bookstore-API: the message and library routers

    A shallow embedding of [src/routes/open/message.ts] (the router
    [messageRouter]) and [src/routes/closed/closed_message.ts] (the router
    [libraryRouter]), of the JavaScript operations they use and of the
    SQL statements they send, followed by the properties of the
    specification that concern them. *)

From Stdlib Require Import ZArith Lia Ascii String.
From stdpp Require Import base tactics option strings list numbers gmap sorting pretty.

Local Open Scope Z_scope.

(** ** JavaScript values

    The values that reach the handlers: [undefined] (an absent query or body
    field, an absent property of a row), numbers and strings.  Numbers are
    the integers and [nan]; fractional and infinite doubles are outside
    this model. *)

Inductive value :=
| undefined
| nan
| num (z : Z)
| str (s : string).

Global Instance value_eq_dec : EqDecision value.
Proof. solve_decision. Defined.

Global Instance value_inhabited : Inhabited value := populate undefined.

(** A row of a result set, a request body: an object with string keys. *)
Abbreviation object := (gmap string value).

(** [o.k]: the property, or [undefined]. *)
Definition prop (o : object) (k : string) : value := default undefined (o !! k).

(** The string a template literal [`${v}`] or a concatenation makes of
    [v].  A number is written in decimal digits, as JavaScript writes
    the integers below [10^21]. *)
Definition ToString (v : value) : string :=
  match v with
  | undefined => "undefined"
  | nan => "NaN"
  | num z => pretty z
  | str s => s
  end.

(** Truthiness, as [&&], [!] and [if] see a value. *)
Definition truthy (v : value) : bool :=
  match v with
  | undefined | nan => false
  | num z => negb (z =? 0)
  | str s => negb (bool_decide (s = ""))
  end.

Module Numeral.

Fixpoint trim_start (s : string) : string :=
  match s with
  | String a s' => if Ascii.is_space a then trim_start s' else s
  | EmptyString => EmptyString
  end.

Definition trim (s : string) : string :=
  String.rev (trim_start (String.rev (trim_start s))).

(** The value of [a] as a digit of the radix, 10 or 16. *)
Definition digit (radix : Z) (a : ascii) : option Z :=
  match Ascii.is_nat a with
  | Some d => Some (Z.of_nat d)
  | None =>
      if radix =? 16 then
        match a with
        | "a" | "A" => Some 10 | "b" | "B" => Some 11 | "c" | "C" => Some 12
        | "d" | "D" => Some 13 | "e" | "E" => Some 14 | "f" | "F" => Some 15
        | _ => None
        end%char
      else None
  end.

(** The longest prefix of digits, read in the radix, and what follows
    it; [None] when [s] starts with no digit. *)
Fixpoint digits (radix : Z) (acc : option Z) (s : string) : option Z * string :=
  match s with
  | String a s' =>
      match digit radix a with
      | Some d => digits radix (Some (radix * default 0 acc + d)) s'
      | None => (acc, s)
      end
  | EmptyString => (acc, EmptyString)
  end.

Definition sign (s : string) : Z * string :=
  match s with
  | String "-" s' => (-1, s')
  | String "+" s' => (1, s')
  | _ => (1, s)
  end.

Definition prefix0x (s : string) : Z * string :=
  match s with
  | String "0" (String "x" s') | String "0" (String "X" s') => (16, s')
  | _ => (10, s)
  end.

End Numeral.

(** [parseInt(v)]: the string of [v] without leading white space, an
    optional sign, an optional [0x], then the longest run of digits; [nan]
    when there is none.  What follows the digits is ignored. *)
Definition parseInt (v : value) : value :=
  let '(sg, s) := Numeral.sign (Numeral.trim_start (ToString v)) in
  let '(radix, s) := Numeral.prefix0x s in
  match (Numeral.digits radix None s).1 with
  | Some n => num (sg * n)
  | None => nan
  end.

(** [+v], the conversion to a number.  A string converts when, white space
    trimmed, it is empty (to 0) or an optionally signed run of decimal
    digits; every other string is read as [nan].  Numerals with a
    fraction, an exponent or a radix prefix, and [Infinity], denote
    doubles this model has no value for: they are read as [nan] too, and
    the properties of pagination are stated for query parameters that
    are absent, integers, or no numerals at all. *)
Definition ToNumber (v : value) : value :=
  match v with
  | undefined => nan
  | nan => nan
  | num z => num z
  | str s =>
      let t := Numeral.trim s in
      if bool_decide (t = "") then num 0
      else
        let '(sg, r) := Numeral.sign t in
        match Numeral.digits 10 None r with
        | (Some n, EmptyString) => num (sg * n)
        | _ => nan
        end
  end.

(** The relational operators on two values of which one at least is no
    string: both are converted to numbers, and a comparison with [nan]
    is false.  Two strings compare as strings. *)
Definition compare_with (on_num : Z → Z → bool) (on_str : string → string → bool)
    (a b : value) : bool :=
  match a, b with
  | str s, str t => on_str s t
  | _, _ =>
      match ToNumber a, ToNumber b with
      | num x, num y => on_num x y
      | _, _ => false
      end
  end.

Definition js_gt : value → value → bool :=
  compare_with Z.gtb (λ s t, String.ltb t s).
Definition js_ge : value → value → bool :=
  compare_with Z.geb (λ s t, String.leb t s).
Definition js_le : value → value → bool :=
  compare_with Z.leb String.leb.

(** [a + b]: concatenation when one operand is a string, addition of the
    two numbers otherwise. *)
Definition js_add (a b : value) : value :=
  match a, b with
  | str _, _ | _, str _ => str (ToString a +:+ ToString b)
  | _, _ =>
      match ToNumber a, ToNumber b with
      | num x, num y => num (x + y)
      | _, _ => nan
      end
  end.

(** [s.endsWith(suffix)] *)
Definition endsWith (s suffix : string) : bool :=
  String.prefix (String.rev suffix) (String.rev s).

(** ** The database

    [pool] is the connection to a Postgres database with two tables.  The
    statements the routers send are the constructors of [statement], and
    [execute] gives each one its meaning on the tables.  Integer columns
    and parameters are unbounded here: a property of a statement that
    takes an integer is stated for integers within the range of its
    column. *)

(** A row of [Demo].  [DemoID] is generated by the database, starting at
    1; [name] is unique. *)
Record demo := {
  demoid : Z;
  name : string;
  message : string;
  priority : Z;
}.

(** Modelled from the spec: the schema of [BOOKS] is not under src/; the
    columns are those the statements select, with the types of the data
    model.  [rating_avg] is kept as the decimal numeral the driver hands
    to the handlers. *)
Record book := {
  isbn13 : string;
  authors : string;
  publication_year : Z;
  title : string;
  rating_avg : string;
}.

Record database := {
  Demo : list demo;
  DemoID_seq : Z;   (* the last DemoID handed out *)
  BOOKS : list book;
}.

Global Instance demo_eq_dec : EqDecision demo.
Proof. solve_decision. Defined.
Global Instance book_eq_dec : EqDecision book.
Proof. solve_decision. Defined.

(** What a rejected query carries: [error.detail] may be absent. *)
Record pg_error := { detail : option string }.

Record result := {
  rowCount : Z;
  rows : list object;
}.

Inductive statement :=
| SelectDemoPage (limit offset : value)
    (* SELECT name, message, priority FROM Demo ORDER BY DemoID LIMIT $1 OFFSET $2 *)
| SelectDemoAfter (limit cursor : value)
    (* SELECT name, message, priority, DemoID FROM Demo WHERE DemoID > $2
       ORDER BY DemoID LIMIT $1 *)
| CountDemo
    (* SELECT count( * ) AS exact_count FROM demo; *)
| InsertDemo (Name Message Priority : value)
    (* INSERT INTO DEMO(Name, Message, Priority) VALUES ($1, $2, $3) RETURNING * *)
| DeleteDemoByName (n : value)
    (* DELETE FROM Demo  WHERE name = $1 RETURNING * *)
| DeleteDemoByPriority (p : value)
    (* DELETE FROM Demo  WHERE priority = $1 RETURNING * *)
| UpdateDemoMessage (m n : value)
    (* UPDATE Demo SET message = $1 WHERE name = $2 RETURNING * *)
| SelectDemo
    (* SELECT name, message, priority FROM Demo *)
| SelectDemoByPriority (p : value)
    (* SELECT name, message, priority FROM Demo where priority = $1 *)
| SelectDemoByName (n : value)
    (* SELECT name, message, priority FROM Demo WHERE name = $1 *)
| SelectBooksByAuthors (a : value)
    (* SELECT isbn13, authors, publication_year, title, rating_avg FROM BOOKS
       WHERE authors LIKE '%' || $1 || '%' *)
| SelectBooksByYear (y : value)
    (* ... FROM BOOKS where publication_year = $1 *)
| SelectBooksByRating (r : value)
    (* ... FROM BOOKS where rating_avg = $1 *)
| SelectBooksByIsbn13 (i : value)
    (* ... FROM BOOKS WHERE isbn13 = $1 *)
| SelectBooksByTitle (t : value)
    (* ... FROM BOOKS where title = $1 *)
| SelectBooks.
    (* SELECT title, authors, isbn13, publication_year, rating_avg FROM BOOKS *)

Module Sql.

(** A parameter as a value of a text column.  Columns hold no NULL in
    this model: [undefined] has no value of any column type. *)
Definition text (v : value) : option string :=
  match v with
  | undefined => None
  | v => Some (ToString v)
  end.

(** A parameter as an integer: a number, or a string that is an
    optionally signed run of digits. *)
Definition int (v : value) : option Z :=
  match v with
  | num z => Some z
  | str s =>
      if bool_decide (Numeral.trim s = "") then None
      else match ToNumber (str s) with num z => Some z | _ => None end
  | _ => None
  end.

(** The exponent of a numeral: nothing, or [e] and a signed run of
    digits. *)
Definition exponent (s : string) : option Z :=
  match s with
  | EmptyString => Some 0
  | String "e" r | String "E" r =>
      let '(sg, r) := Numeral.sign r in
      match Numeral.digits 10 None r with
      | (Some n, EmptyString) => Some (sg * n)
      | _ => None
      end
  | _ => None
  end.

(** A numeral of [numeric], [-d.ddde-d], as a fraction: the numerator
    and the denominator, a power of ten.  There are digits before the
    point or after it; white space around the numeral is skipped. *)
Definition decimal (s : string) : option (Z * Z) :=
  let '(sg, r) := Numeral.sign (Numeral.trim s) in
  let '(whole, r) := Numeral.digits 10 None r in
  let '(mantissa, scale, r) :=
    match r with
    | String "." f =>
        let '(m, r') := Numeral.digits 10 whole f in
        (m, Z.of_nat (String.length f) - Z.of_nat (String.length r'), r')
    | _ => (whole, 0, r)
    end in
  match mantissa, exponent r with
  | Some m, Some e =>
      Some (sg * m * 10 ^ Z.max 0 (e - scale), 10 ^ Z.max 0 (scale - e))
  | _, _ => None
  end.

Definition numeric (v : value) : option (Z * Z) :=
  match v with
  | num z => Some (z, 1)
  | str s => decimal s
  | _ => None
  end.

Definition numeric_eqb (a b : Z * Z) : bool := a.1 * b.2 =? b.1 * a.2.

(** [s LIKE p]: [%] matches any run of characters, [_] any one
    character, a backslash takes the next character literally. *)
Fixpoint like (p s : string) : bool :=
  match p with
  | EmptyString => bool_decide (s = "")
  | String "%" p' =>
      (fix any (s : string) : bool :=
         like p' s || match s with String _ s' => any s' | EmptyString => false end) s
  | String "_" p' =>
      match s with String _ s' => like p' s' | EmptyString => false end
  | String "092" (String c p') | String c p' =>
      match s with
      | String c' s' => bool_decide (c = c') && like p' s'
      | EmptyString => false
      end
  end.

(** The columns a statement returns, under their lower-case names. *)
Definition demo_columns (d : demo) : object :=
  {[ "name" := str (name d); "message" := str (message d);
     "priority" := num (priority d) ]}.

Definition demo_star (d : demo) : object :=
  <["demoid" := num (demoid d)]> (demo_columns d).

Definition book_columns (b : book) : object :=
  {[ "isbn13" := str (isbn13 b); "authors" := str (authors b);
     "publication_year" := num (publication_year b);
     "title" := str (title b); "rating_avg" := str (rating_avg b) ]}.

Definition returning (rs : list object) : result :=
  {| rowCount := Z.of_nat (length rs); rows := rs |}.

(** [ORDER BY DemoID] *)
Definition DemoID_le (a b : demo) : Prop := demoid a ≤ demoid b.

Global Instance DemoID_le_dec : RelDecision DemoID_le.
Proof. intros a b. unfold DemoID_le. apply _. Defined.

Definition by_DemoID : list demo → list demo := merge_sort DemoID_le.

Definition failure : pg_error := {| detail := None |}.

Definition unique_violation (n : string) : pg_error :=
  {| detail := Some ("Key (name)=(" +:+ n +:+ ") already exists.") |}.

Definition set_Demo (ds : list demo) (db : database) : database :=
  {| Demo := ds; DemoID_seq := DemoID_seq db; BOOKS := BOOKS db |}.

(** [nextval] of the sequence of [DemoID] *)
Definition next_key (db : database) : database :=
  {| Demo := Demo db; DemoID_seq := DemoID_seq db + 1; BOOKS := BOOKS db |}.

(** A [bigint] as the driver hands it to the handlers: its decimal
    numeral, a string. *)
Definition bigint (z : Z) : value := str (pretty z).

Definition select_books (P : book → bool) (db : database) : result :=
  returning (book_columns <$> List.filter P (BOOKS db)).

End Sql.

(** The meaning of a statement: a rejection or a result, and the tables
    after it.  A parameter that has no value of its column's type makes
    the statement fail before it runs; an [INSERT] that the unique
    constraint on [name] refuses has taken its key from the sequence, and
    the key is not given back. *)
Definition execute (st : statement) (db : database) :
    pg_error * database + result * database :=
  match st with
  | SelectDemoPage limit offset =>
      match Sql.int limit, Sql.int offset with
      | Some l, Some o =>
          if (l <? 0) || (o <? 0) then inl (Sql.failure, db)
          else inr (Sql.returning
                      (Sql.demo_columns <$>
                         take (Z.to_nat l) (drop (Z.to_nat o) (Sql.by_DemoID (Demo db)))),
                    db)
      | _, _ => inl (Sql.failure, db)
      end
  | SelectDemoAfter limit cursor =>
      match Sql.int limit, Sql.int cursor with
      | Some l, Some c =>
          if l <? 0 then inl (Sql.failure, db)
          else inr (Sql.returning
                      (Sql.demo_star <$>
                         take (Z.to_nat l)
                           (Sql.by_DemoID (List.filter (λ d, c <? demoid d) (Demo db)))),
                    db)
      | _, _ => inl (Sql.failure, db)
      end
  | CountDemo =>
      inr (Sql.returning [ {[ "exact_count" := Sql.bigint (Z.of_nat (length (Demo db))) ]} ],
           db)
  | InsertDemo Name Message Priority =>
      match Sql.text Name, Sql.text Message, Sql.int Priority with
      | Some n, Some m, Some p =>
          if existsb (λ d, bool_decide (name d = n)) (Demo db) then
            inl (Sql.unique_violation n, Sql.next_key db)
          else
            let d := {| demoid := DemoID_seq db + 1; name := n; message := m;
                        priority := p |} in
            inr (Sql.returning [Sql.demo_star d],
                 {| Demo := Demo db ++ [d]; DemoID_seq := DemoID_seq db + 1;
                    BOOKS := BOOKS db |})
      | _, _, _ => inl (Sql.failure, db)
      end
  | DeleteDemoByName n =>
      match Sql.text n with
      | Some n =>
          let hit d := bool_decide (name d = n) in
          inr (Sql.returning (Sql.demo_star <$> List.filter hit (Demo db)),
               Sql.set_Demo (List.filter (λ d, negb (hit d)) (Demo db)) db)
      | None => inl (Sql.failure, db)
      end
  | DeleteDemoByPriority p =>
      match Sql.int p with
      | Some p =>
          let hit d := priority d =? p in
          inr (Sql.returning (Sql.demo_star <$> List.filter hit (Demo db)),
               Sql.set_Demo (List.filter (λ d, negb (hit d)) (Demo db)) db)
      | None => inl (Sql.failure, db)
      end
  | UpdateDemoMessage m n =>
      match Sql.text m, Sql.text n with
      | Some m, Some n =>
          let hit d := bool_decide (name d = n) in
          let set d := {| demoid := demoid d; name := name d; message := m;
                          priority := priority d |} in
          inr (Sql.returning (Sql.demo_star <$> (set <$> List.filter hit (Demo db))),
               Sql.set_Demo ((λ d, if hit d then set d else d) <$> Demo db) db)
      | _, _ => inl (Sql.failure, db)
      end
  | SelectDemo =>
      inr (Sql.returning (Sql.demo_columns <$> Demo db), db)
  | SelectDemoByPriority p =>
      match Sql.int p with
      | Some p =>
          inr (Sql.returning
                 (Sql.demo_columns <$> List.filter (λ d, priority d =? p) (Demo db)), db)
      | None => inl (Sql.failure, db)
      end
  | SelectDemoByName n =>
      match Sql.text n with
      | Some n =>
          inr (Sql.returning
                 (Sql.demo_columns <$>
                    List.filter (λ d, bool_decide (name d = n)) (Demo db)), db)
      | None => inl (Sql.failure, db)
      end
  | SelectBooksByAuthors a =>
      match Sql.text a with
      | Some a =>
          inr (Sql.select_books (λ b, Sql.like ("%" +:+ a +:+ "%") (authors b)) db, db)
      | None => inl (Sql.failure, db)
      end
  | SelectBooksByYear y =>
      match Sql.int y with
      | Some y => inr (Sql.select_books (λ b, publication_year b =? y) db, db)
      | None => inl (Sql.failure, db)
      end
  | SelectBooksByRating r =>
      match Sql.numeric r with
      | Some r =>
          inr (Sql.select_books
                 (λ b, match Sql.decimal (rating_avg b) with
                       | Some q => Sql.numeric_eqb q r
                       | None => false
                       end) db, db)
      | None => inl (Sql.failure, db)
      end
  | SelectBooksByIsbn13 i =>
      match Sql.text i with
      | Some i => inr (Sql.select_books (λ b, bool_decide (isbn13 b = i)) db, db)
      | None => inl (Sql.failure, db)
      end
  | SelectBooksByTitle t =>
      match Sql.text t with
      | Some t => inr (Sql.select_books (λ b, bool_decide (title b = t)) db, db)
      | None => inl (Sql.failure, db)
      end
  | SelectBooks =>
      inr (Sql.select_books (λ _, true) db, db)
  end.

(** The tables a statement leaves, refused or not. *)
Definition leaves (st : statement) (db : database) : database :=
  match execute st db with
  | inl (_, db') | inr (_, db') => db'
  end.

(** ** Handlers as computations

    A handler runs in a world: the tables, the failures the connection is
    going to suffer (one entry per query to come, [Some e] rejects that
    query with [e] whatever the statement), the statements sent so far
    and the layers of the router entered so far.  A computation returns
    or throws; a promise that rejects is a computation that throws. *)

Inductive exn :=
| TypeError (msg : string)
| DatabaseError (e : pg_error).

Inductive outcome (A : Type) :=
| Ok (a : A)
| Throw (e : exn).
Arguments Ok {A} a.
Arguments Throw {A} e.

Record world := {
  store : database;
  faults : list (option pg_error);
  queries : list statement;
  visited : list (string * nat);
}.

Definition M (A : Type) : Type := world → outcome A * world.

Global Instance M_ret : MRet M := λ A a w, (Ok a, w).

Global Instance M_bind : MBind M := λ A B f m w,
  match m w with
  | (Ok a, w') => f a w'
  | (Throw e, w') => (Throw e, w')
  end.

Definition throw {A} (e : exn) : M A := λ w, (Throw e, w).

(** [try { m } catch (error) { h error }], and [m.catch(h)] *)
Definition try_catch {A} (m : M A) (h : exn → M A) : M A := λ w,
  match m w with
  | (Throw e, w') => h e w'
  | r => r
  end.

(** [pool.query(statement)] *)
Definition pool_query (st : statement) : M result := λ w,
  let after db :=
    {| store := db; faults := tail (faults w); queries := queries w ++ [st];
       visited := visited w |} in
  match head (faults w) with
  | Some (Some e) => (Throw (DatabaseError e), after (store w))
  | _ =>
      match execute st (store w) with
      | inl (e, db) => (Throw (DatabaseError e), after db)
      | inr (r, db) => (Ok r, after db)
      end
  end.

Definition enter (layer : string * nat) : M unit := λ w,
  (Ok (), {| store := store w; faults := faults w; queries := queries w;
             visited := visited w ++ [layer] |}).

(** [error.detail] *)
Definition detail_of (error : exn) : value :=
  match error with
  | DatabaseError {| detail := Some d |} => str d
  | _ => undefined
  end.

(** [v.length] *)
Definition length_of (v : value) : M value :=
  match v with
  | undefined => throw (TypeError "Cannot read properties of undefined (reading 'length')")
  | str s => mret (num (Z.of_nat (String.length s)))
  | _ => mret undefined
  end.

(** [a == b] *)
Definition loose_eq (a b : value) : bool :=
  match a, b with
  | undefined, undefined => true
  | undefined, _ | _, undefined => false
  | str s, str t => bool_decide (s = t)
  | _, _ =>
      match ToNumber a, ToNumber b with
      | num x, num y => x =? y
      | _, _ => false
      end
  end.

(** [result.rows[0]], where a property of it is read next *)
Definition row0 (r : result) : M object :=
  match rows r with
  | o :: _ => mret o
  | [] => throw (TypeError "Cannot read properties of undefined")
  end.

(** [array.reduce(f)], with no initial value *)
Definition reduce (f : value → value → value) (array : list value) : M value :=
  match array with
  | [] => throw (TypeError "Reduce of empty array with no initial value")
  | x :: l => mret (foldl f x l)
  end.

(** ** Requests, responses and routers *)

Record request := {
  query : object;
  params : object;
  body : object;
}.

(** An element of [entries], or the [entry]. *)
Inductive item :=
| Absent
| Text (s : string)
| Obj (o : object).

(** The JSON bodies the routers send. *)
Inductive payload :=
| Message (m : string)                          (* { message } *)
| Entry (e : item)                              (* { entry } *)
| Entries (es : list item)                      (* { entries } *)
| Page (es : list item) (pagination : object).  (* { entries, pagination } *)

Record response := {
  status : Z;
  sent : payload;
}.

(** What becomes of a request in a router: a response is sent, or no
    layer answers. *)
Inductive reply :=
| Sent (r : response)
| Unhandled.

(** [(request, response, next) => ...] *)
Definition middleware : Type := request → M reply → M reply.

(** [response.status(code).send(body)]; [response.send(body)] is [send 200]. *)
Definition send (code : Z) (b : payload) : M reply :=
  mret (Sent {| status := code; sent := b |}).

Inductive method := GET | POST | PUT | DELETE.

Global Instance method_eq_dec : EqDecision method.
Proof. solve_decision. Defined.

Inductive segment :=
| lit (s : string)
| param (p : string).

Record route := {
  verb : method;
  path : list segment;
  label : string;
  stack : list middleware;
}.

(** The parameters a path binds when the url matches it. *)
Fixpoint match_path (p : list segment) (url : list string) : option object :=
  match p, url with
  | [], [] => Some ∅
  | lit s :: p', u :: url' =>
      if bool_decide (s = u) then match_path p' url' else None
  | param x :: p', u :: url' =>
      if bool_decide (u = "") then None
      else (λ ps, <[x := str u]> ps) <$> match_path p' url'
  | _, _ => None
  end.

(** The layers of a route, each with the rest as its [next]. *)
Fixpoint run_stack (name : string) (i : nat) (layers : list middleware)
    (request : request) (next : M reply) : M reply :=
  match layers with
  | [] => next
  | h :: layers' =>
      enter (name, i);; h request (run_stack name (S i) layers' request next)
  end.

(** The routes in the order of their registration; a route is tried when
    its method and path match. *)
Fixpoint dispatch (routes : list route) (m : method) (url : list string)
    (request : request) : M reply :=
  match routes with
  | [] => mret Unhandled
  | r :: routes' =>
      match (if bool_decide (verb r = m) then match_path (path r) url else None) with
      | Some ps =>
          run_stack (label r) 0 (stack r)
            {| query := query request; params := ps; body := body request |}
            (dispatch routes' m url request)
      | None => dispatch routes' m url request
      end
  end.

(** [validationFunctions] of [core/utilities], which is not under src/: the
    routers are read for any two predicates. *)
Record validation := {
  isStringProvided : value → bool;
  isNumberProvided : value → bool;
}.

(** ** [src/routes/open/message.ts] *)

Module Message.
Section routes.

Variable validationFunctions : validation.

Definition format (resultRow : object) : string :=
  "{" +:+ ToString (prop resultRow "title") +:+ "} by [" +:+
  ToString (prop resultRow "authors") +:+ "] - ISBN: [" +:+
  ToString (prop resultRow "isbn13") +:+ "], published in [" +:+
  ToString (prop resultRow "publication_year") +:+ "], average rating: [" +:+
  ToString (prop resultRow "rating_avg") +:+ "]".

Definition server_error : exn → M reply :=
  λ error, send 500 (Message "server error - contact support").

Definition mwValidPriorityQuery : middleware := λ request next,
  let priority := prop (query request) "priority" in
  if isNumberProvided validationFunctions priority
     && js_ge (parseInt priority) (num 1)
     && js_le (parseInt priority) (num 3)
  then next
  else send 400 (Message "Invalid or missing Priority - please refer to documentation").

Definition mwValidNameMessageBody : middleware := λ request next,
  if isStringProvided validationFunctions (prop (body request) "name")
     && isStringProvided validationFunctions (prop (body request) "message")
  then next
  else send 400 (Message "Missing required information - please refer to documentation").

(** The second layer of [post('/')] *)
Definition PostMessage_priority : middleware := λ request next,
  let priority := prop (body request) "priority" in
  if isNumberProvided validationFunctions priority
     && js_ge (parseInt priority) (num 1)
     && js_le (parseInt priority) (num 3)
  then next
  else send 400 (Message "Invalid or missing Priority - please refer to documentation").

Definition PostMessage : middleware := λ request next,
  try_catch
    (result ← pool_query (InsertDemo (prop (body request) "name")
                            (prop (body request) "message")
                            (prop (body request) "priority"));
     r ← row0 result;
     send 201 (Entry (Text (format r))))
    (λ error,
       if negb (bool_decide (detail_of error = undefined))
          && endsWith (ToString (detail_of error)) "already exists."
       then send 400 (Message "Name exists")
       else server_error error).

Definition myValidAuthorQuery : middleware := λ request next,
  let author := prop (query request) "authors" in
  if isStringProvided validationFunctions author then next
  else send 400 (Message "Invalid or missing author - please refer to documentation").

Definition GetMessageAuthor : middleware := λ request next,
  let publishedYear := prop (query request) "publication_year" in
  let ratingAvg := prop (query request) "rating_avg" in
  let author := prop (query request) "authors" in
  if truthy author && negb (truthy ratingAvg) && negb (truthy publishedYear) then
    myValidAuthorQuery request
      (try_catch
         (result ← pool_query (SelectBooksByAuthors (prop (query request) "authors"));
          if 0 <? rowCount result
          then send 200 (Entries (Text ∘ format <$> rows result))
          else send 404 (Message "No book associated with this author was found"))
         server_error)
  else next.

Definition myValidPublicationYearQuery : middleware := λ request next,
  let publishedYear := prop (query request) "publication_year" in
  ok ← (if isNumberProvided validationFunctions publishedYear
        then l ← length_of publishedYear; mret (loose_eq l (num 4))
        else mret false);
  if ok : bool then next
  else send 400
         (Message "Invalid or missing publication_year - please refer to documentation").

Definition GetMessagePublicationYear : middleware := λ request next,
  let publishedYear := prop (query request) "publication_year" in
  let ratingAvg := prop (query request) "rating_avg" in
  let authors := prop (query request) "authors" in
  if truthy publishedYear && negb (truthy ratingAvg) && negb (truthy authors) then
    myValidPublicationYearQuery request
      (try_catch
         (result ← pool_query
                     (SelectBooksByYear (prop (query request) "publication_year"));
          if 0 <? rowCount result
          then send 200 (Entries (Text ∘ format <$> rows result))
          else send 404
                 (Message "No book associated with this publication year was found"))
         server_error)
  else next.

Definition myValidIsbn13Param : middleware := λ request next,
  let ISBN := prop (params request) "isbn13" in
  ok ← (if isNumberProvided validationFunctions ISBN
        then l ← length_of ISBN; mret (loose_eq l (num 13))
        else mret false);
  if ok : bool then next
  else send 400 (Message "Invalid or missing isbn13 - please refer to documentation").

Definition GetMessageIsbn : middleware := λ request next,
  try_catch
    (result ← pool_query (SelectBooksByIsbn13 (prop (params request) "isbn13"));
     if rowCount result =? 1
     then send 200 (Entry (from_option Obj Absent (head (rows result))))
     else send 404 (Message "No book associated with this isbn13 was found"))
    server_error.

Definition myValidTitleParam : middleware := λ request next,
  let title := prop (params request) "title" in
  if negb (isNumberProvided validationFunctions title)
     && isStringProvided validationFunctions title
  then next
  else send 400 (Message "Invalid or missing title - please refer to documentation").

Definition RetrieveBookTitle : middleware := λ request next,
  try_catch
    (result ← pool_query (SelectBooksByTitle (prop (params request) "title"));
     if rowCount result =? 1
     then send 200 (Entry (from_option Obj Absent (head (rows result))))
     else send 404 (Message "No book associated with this title was found"))
    server_error.

Definition mwValidRatingAverageQuery : middleware := λ request next,
  let ratingAvg := prop (query request) "rating_avg" in
  if isNumberProvided validationFunctions ratingAvg then next
  else send 400
         (Message "Invalid or missing rating_avg - please refer to documentation").

Definition RetrieveByRatingAvg : middleware := λ request next,
  try_catch
    (result ← pool_query (SelectBooksByRating (prop (query request) "rating_avg"));
     if 0 <? rowCount result
     then send 200 (Entries (Text ∘ format <$> rows result))
     else send 404 (Message "No book associated with this rating_avg was found"))
    server_error.

Definition RetrieveAllBooks : middleware := λ request next,
  try_catch
    (result ← pool_query SelectBooks;
     if 0 <? rowCount result
     then send 200 (Entries (Text ∘ format <$> rows result))
     else send 404 (Message "No books found"))
    server_error.

Definition GetAllMessages : middleware := λ request next,
  try_catch
    (result ← pool_query SelectDemo;
     send 200 (Entries (Text ∘ format <$> rows result)))
    server_error.

Definition GetAllMessagesPri : middleware := λ request next,
  try_catch
    (result ← pool_query (SelectDemoByPriority (prop (query request) "priority"));
     if 0 <? rowCount result
     then send 200 (Entries (Obj <$> rows result))
     else send 404
            (Message ("No Priority " +:+ ToString (prop (query request) "priority")
                      +:+ " messages found")))
    server_error.

Definition GetMessageName : middleware := λ request next,
  try_catch
    (result ← pool_query (SelectDemoByName (prop (params request) "name"));
     if rowCount result =? 1
     then send 200 (Entry (from_option Obj Absent (head (rows result))))
     else send 404 (Message "Name not found"))
    server_error.

Definition PutMessage : middleware := λ request next,
  try_catch
    (result ← pool_query (UpdateDemoMessage (prop (body request) "message")
                            (prop (body request) "name"));
     if rowCount result =? 1
     then r ← row0 result; send 200 (Entry (Text ("Updated: " +:+ format r)))
     else send 404 (Message "Name not found"))
    server_error.

Definition DeleteMessagesPri : middleware := λ request next,
  try_catch
    (result ← pool_query (DeleteDemoByPriority (prop (query request) "priority"));
     if 0 <? rowCount result
     then send 200 (Entries (Text ∘ format <$> rows result))
     else send 404
            (Message ("No Priority " +:+ ToString (prop (query request) "priority")
                      +:+ " messages found")))
    server_error.

Definition DeleteMessage : middleware := λ request next,
  try_catch
    (result ← pool_query (DeleteDemoByName (prop (params request) "name"));
     if rowCount result =? 1
     then r ← row0 result; send 200 (Entry (Text ("Deleted: " +:+ format r)))
     else send 404 (Message "Name not found"))
    server_error.

(** The routes, in the order of the file; each carries the [@apiName]
    of its documentation as label. *)
Definition messageRouter : list route := [
  {| verb := POST; path := []; label := "PostMessage";
     stack := [mwValidNameMessageBody; PostMessage_priority; PostMessage] |};
  {| verb := GET; path := []; label := "GetMessageAuthor";
     stack := [GetMessageAuthor] |};
  {| verb := GET; path := []; label := "GetMessagePublicationYear";
     stack := [GetMessagePublicationYear] |};
  {| verb := GET; path := [lit "isbn13"; param "isbn13"]; label := "GetMessageIsbn";
     stack := [myValidIsbn13Param; GetMessageIsbn] |};
  {| verb := GET; path := [lit "title"; param "title"]; label := "RetrieveBookTitle";
     stack := [myValidTitleParam; RetrieveBookTitle] |};
  {| verb := GET; path := []; label := "RetrieveByRatingAvg";
     stack := [mwValidRatingAverageQuery; RetrieveByRatingAvg] |};
  {| verb := GET; path := [lit "retrieve"]; label := "RetrieveAllBooks";
     stack := [RetrieveAllBooks] |};
  {| verb := GET; path := [lit "all"]; label := "GetAllMessages";
     stack := [GetAllMessages] |};
  {| verb := GET; path := []; label := "GetAllMessagesPri";
     stack := [mwValidPriorityQuery; GetAllMessagesPri] |};
  {| verb := GET; path := [lit "name"; param "name"]; label := "GetMessageName";
     stack := [GetMessageName] |};
  {| verb := PUT; path := []; label := "PutMessage";
     stack := [mwValidNameMessageBody; PutMessage] |};
  {| verb := DELETE; path := []; label := "DeleteMessagesPri";
     stack := [mwValidPriorityQuery; DeleteMessagesPri] |};
  {| verb := DELETE; path := [param "name"]; label := "DeleteMessage";
     stack := [DeleteMessage] |}
].

End routes.
End Message.

(** ** [src/routes/closed/closed_message.ts] *)

Module Library.
Section routes.

Variable validationFunctions : validation.

Definition format (resultRow : object) : object :=
  <["formatted" :=
      str ("{" +:+ ToString (prop resultRow "priority") +:+ "} - [" +:+
           ToString (prop resultRow "name") +:+ "] says: " +:+
           ToString (prop resultRow "message"))]> resultRow.

(** [isNumberProvided(q) && +q > 0 ? +q : 10] *)
Definition limit_of (q : value) : value :=
  if isNumberProvided validationFunctions q && js_gt (ToNumber q) (num 0)
  then ToNumber q else num 10.

(** [isNumberProvided(q) && +q >= 0 ? +q : 0] *)
Definition start_of (q : value) : value :=
  if isNumberProvided validationFunctions q && js_ge (ToNumber q) (num 0)
  then ToNumber q else num 0.

Definition offset : middleware := λ request next,
  let limit := limit_of (prop (query request) "limit") in
  let offset := start_of (prop (query request) "offset") in
  page ← pool_query (SelectDemoPage limit offset);
  result ← pool_query CountDemo;
  r ← row0 result;
  let count := prop r "exact_count" in
  send 200
    (Page (Obj ∘ format <$> rows page)
       {[ "totalRecords" := count; "limit" := limit; "offset" := offset;
          "nextPage" := js_add limit offset ]}).

Definition cursor : middleware := λ request next,
  let limit := limit_of (prop (query request) "limit") in
  let cursor := start_of (prop (query request) "cursor") in
  page ← pool_query (SelectDemoAfter limit cursor);
  result ← pool_query CountDemo;
  r ← row0 result;
  let count := prop r "exact_count" in
  let entries := Obj ∘ format <$> (delete "demoid" <$> rows page) in
  largest ← reduce (λ max id, if js_gt id max then id else max)
                   ((λ row, prop row "demoid") <$> rows page);
  send 200
    (Page entries
       {[ "totalRecords" := count; "limit" := limit; "cursor" := largest ]}).

Definition post_name_message : middleware := λ request next,
  if isStringProvided validationFunctions (prop (body request) "name")
     && isStringProvided validationFunctions (prop (body request) "message")
  then next
  else send 400 (Message "Missing required information - please refer to documentation").

Definition post_priority : middleware := λ request next,
  let priority := prop (body request) "priority" in
  if isNumberProvided validationFunctions priority
     && js_ge (parseInt priority) (num 1)
     && js_le (parseInt priority) (num 3)
  then next
  else send 400 (Message "Invalid or missing Priority - please refer to documentation").

Definition post : middleware := λ request next,
  try_catch
    (result ← pool_query (InsertDemo (prop (body request) "name")
                            (prop (body request) "message")
                            (prop (body request) "priority"));
     r ← row0 result;
     send 201 (Entry (Obj (format r))))
    (λ error,
       if truthy (detail_of error) && endsWith (ToString (detail_of error)) "exists."
       then send 400 (Message "Name exists")
       else send 500 (Message "server error - contact support")).

Definition delete_name : middleware := λ request next,
  try_catch
    (result ← pool_query (DeleteDemoByName (prop (params request) "name"));
     if rowCount result =? 1
     then r ← row0 result;
          send 200 (Entry (Text ("Deleted: " +:+ ToString (prop (format r) "formatted"))))
     else send 404 (Message "Name not found"))
    (λ error, send 500 (Message "server error - contact support")).

(** The routes, in the order of the file, labelled by method and path. *)
Definition libraryRouter : list route := [
  {| verb := GET; path := [lit "offset"]; label := "GET /offset";
     stack := [offset] |};
  {| verb := GET; path := [lit "cursor"]; label := "GET /cursor";
     stack := [cursor] |};
  {| verb := POST; path := []; label := "POST /";
     stack := [post_name_message; post_priority; post] |};
  {| verb := DELETE; path := [param "name"]; label := "DELETE /:name";
     stack := [delete_name] |}
].

End routes.
End Library.

(** A request with empty query, parameters and body, and a world with
    empty logs. *)
Definition no_fields : request := {| query := ∅; params := ∅; body := ∅ |}.

Definition with_query (q : object) : request := {| query := q; params := ∅; body := ∅ |}.
Definition with_body (b : object) : request := {| query := ∅; params := ∅; body := b |}.

Definition start (db : database) (fs : list (option pg_error)) : world :=
  {| store := db; faults := fs; queries := []; visited := [] |}.

(** Modelled from the spec: [validationFunctions] of [core/utilities] is
    not under src/.  "string-provided (non-empty, correct type)" and
    "number-provided (parses as integer)"; the theorems below hold for
    every pair of predicates, these two are used where a concrete pair is
    needed. *)
Definition utilities : validation := {|
  isStringProvided v :=
    match v with str s => negb (bool_decide (s = "")) | _ => false end;
  isNumberProvided v :=
    match v with
    | num _ => true
    | str s => bool_decide (is_Some (Sql.int (str s)))
    | _ => false
    end;
|}.


(** Three messages, stored out of the order of their keys, and a book. *)
Definition ann : demo := {| demoid := 1; name := "ann"; message := "hi"; priority := 2 |}.
Definition bob : demo := {| demoid := 2; name := "bob"; message := "yo"; priority := 1 |}.
Definition cy : demo := {| demoid := 3; name := "cy"; message := "hey"; priority := 2 |}.

Definition dune : book := {|
  isbn13 := "9780441013593"; authors := "Frank Herbert"; publication_year := 1965;
  title := "Dune"; rating_avg := "4.25";
|}.

Definition shelf : database := {|
  Demo := [bob; cy; ann];
  DemoID_seq := 3;
  BOOKS := [dune];
|}.

(** ** The vocabulary of the properties *)

(** The world after the layers [layers] and no statement. *)
Definition entered (db : database) (fs : list (option pg_error))
    (layers : list (string * nat)) : world :=
  {| store := db; faults := fs; queries := []; visited := layers |}.

(** The response 400 with a message. *)
Definition bad_request (m : string) : outcome reply :=
  Ok (Sent {| status := 400; sent := Message m |}).

(** A computation that ends in a reply, whatever the world. *)
Definition answers (m : M reply) : Prop := ∀ w, ∃ r, (m w).1 = Ok r.

(** A row of [Demo] has none of the columns of a book. *)
Definition no_book : string :=
  "{undefined} by [undefined] - ISBN: [undefined], published in [undefined], average rating: [undefined]".

(** The response 404 with a message. *)
Definition not_found (m : string) : outcome reply :=
  Ok (Sent {| status := 404; sent := Message m |}).

(** [UPDATE Demo SET message = m WHERE name = n] *)
Definition updated (m n : string) (d : demo) : demo :=
  if bool_decide (name d = n)
  then {| demoid := demoid d; name := name d; message := m; priority := priority d |}
  else d.

(** A computation that enters no layer. *)
Definition keeps {A} (m : M A) : Prop := ∀ w, visited (m w).2 = visited w.

(** A computation that sends a response, or throws. *)
Definition replies_or_throws (m : M reply) : Prop :=
  ∀ w, (∃ r, (m w).1 = Ok (Sent r)) ∨ (∃ e, (m w).1 = Throw e).

(** A computation that sends a response. *)
Definition replies (m : M reply) : Prop := ∀ w, ∃ r, (m w).1 = Ok (Sent r).

(** The query asks for the books of an author, of a year. *)
Definition authors_only (q : object) : Prop :=
  truthy (prop q "authors") = true
  ∧ truthy (prop q "rating_avg") = false
  ∧ truthy (prop q "publication_year") = false.

Definition publication_year_only (q : object) : Prop :=
  truthy (prop q "publication_year") = true
  ∧ truthy (prop q "rating_avg") = false
  ∧ truthy (prop q "authors") = false.

(** The layers of [GET /] entered before a response is sent. *)
Definition by_authors : list (string * nat) := [("GetMessageAuthor", 0%nat)].
Definition by_year : list (string * nat) :=
  by_authors ++ [("GetMessagePublicationYear", 0%nat)].
Definition rating_check : list (string * nat) :=
  by_year ++ [("RetrieveByRatingAvg", 0%nat)].
Definition by_rating : list (string * nat) :=
  rating_check ++ [("RetrieveByRatingAvg", 1%nat)].

(** A value that converts to no number: [nan], or a string that, white
    space and a sign apart, is empty or starts with a character no
    numeral starts with (an ASCII character that is no digit and no
    point, and the string is not Infinity). *)
Definition not_a_number (q : value) : Prop :=
  match q with
  | nan => True
  | str s =>
      Numeral.trim s ≠ ""
      ∧ match (Numeral.sign (Numeral.trim s)).2 with
        | EmptyString => True
        | String a r =>
            Numeral.digit 10 a = None ∧ a ≠ "."%char ∧ String a r ≠ "Infinity"
            ∧ (N_of_ascii a < 128)%N
        end
  | _ => False
  end.

(** A string of decimal digits. *)
Fixpoint digits_only (s : string) : bool :=
  match s with
  | EmptyString => true
  | String a s' => bool_decide (is_Some (Numeral.digit 10 a)) && digits_only s'
  end.



Section vocabulary.

Variable vf : validation.




(** The body names a sender and a message. *)
Definition named (b : object) : Prop :=
  isStringProvided vf (prop b "name") = true
  ∧ isStringProvided vf (prop b "message") = true.

(** The priority is a number and its integer is 1, 2 or 3. *)
Definition numeric_priority (p : value) : Prop :=
  isNumberProvided vf p = true ∧ ∃ n, parseInt p = num n ∧ 1 ≤ n ≤ 3.

(** The isbn13 passes its check: it is a number and has 13 characters. *)
Definition valid_isbn13 (s : string) : Prop :=
  isNumberProvided vf (str s) = true ∧ String.length s = 13%nat.




End vocabulary.

(** ** The vocabulary of what the routers keep, send and refuse *)

(** The tables are consistent: names and keys are unique, and no key is
    beyond the last one handed out. *)
Definition consistent (db : database) : Prop :=
  NoDup (name <$> Demo db)
  ∧ NoDup (demoid <$> Demo db)
  ∧ Forall (λ d, demoid d ≤ DemoID_seq db) (Demo db).

(** A computation that takes the tables from one state to one related
    to it by [R], whether it returns or throws. *)
Definition moves {A} (R : relation database) (m : M A) : Prop :=
  ∀ w, R (store w) (store (m w).2).

(** The statements that only read. *)
Definition reads (st : statement) : bool :=
  match st with
  | InsertDemo _ _ _ | DeleteDemoByName _ | DeleteDemoByPriority _
  | UpdateDemoMessage _ _ => false
  | _ => true
  end.

(** The response 500 that hides a failure of the database. *)
Definition server_failure : outcome reply :=
  Ok (Sent {| status := 500; sent := Message "server error - contact support" |}).

(** The connection is going to reject the next statement with [e]. *)
Definition failing (e : pg_error) (w : world) : Prop :=
  head (faults w) = Some (Some e).

(** The rejection reports a key that exists: its detail ends in [suffix]. *)
Definition duplicate (suffix : string) (e : pg_error) : Prop :=
  ∃ s, detail e = Some s ∧ endsWith s suffix = true.

(** A computation that leaves the world as it is. *)
Definition still {A} (m : M A) : Prop := ∀ w, (m w).2 = w.

(** A computation that, when the next statement is going to be rejected
    with [e], either sends no statement, or sends one, leaves the tables
    alone and ends as [final] says. *)
Definition translated (e : pg_error) (final : outcome reply → Prop) (m : M reply) : Prop :=
  ∀ w, failing e w →
    (queries (m w).2 = queries w ∧ faults (m w).2 = faults w)
    ∨ (store (m w).2 = store w
       ∧ (∃ st, queries (m w).2 = queries w ++ [st])
       ∧ final (m w).1).

(** The line of a book, as the responses of the message router show it. *)
Definition book_line (b : book) : string :=
  "{" +:+ title b +:+ "} by [" +:+ authors b +:+ "] - ISBN: [" +:+ isbn13 b +:+
  "], published in [" +:+ pretty (publication_year b) +:+ "], average rating: [" +:+
  rating_avg b +:+ "]".

(** The response 200 with lines. *)
Definition lines (ls : list string) : outcome reply :=
  Ok (Sent {| status := 200; sent := Entries (Text <$> ls) |}).

(** The response 200 with one entry. *)
Definition found (o : object) : outcome reply :=
  Ok (Sent {| status := 200; sent := Entry (Obj o) |}).


Definition sent_by (n : string) (db : database) : list demo :=
  List.filter (λ d, bool_decide (name d = n)) (Demo db).

Definition published (y : Z) (db : database) : list book :=
  List.filter (λ b, publication_year b =? y) (BOOKS db).

(** A computation that sends at most [n] statements, after those sent
    before it. *)
Definition asks {A} (n : nat) (m : M A) : Prop :=
  ∀ w, ∃ sts, queries (m w).2 = queries w ++ sts ∧ (length sts ≤ n)%nat.

(** A response that refuses the request for what it carries: 400 with a
    message other than the one of a name that exists. *)
Definition refusal (r : outcome reply) : Prop :=
  ∃ msg, r = bad_request msg ∧ msg ≠ "Name exists".

(** A computation that refuses only before it has sent a statement, and
    one that does not refuse. *)
Definition refuses_first (m : M reply) : Prop :=
  ∀ w, refusal (m w).1 → queries (m w).2 = queries w.

Definition accepts (m : M reply) : Prop := ∀ w, ¬ refusal (m w).1.



(** The books of a rating, compared as numbers. *)
Definition rated (x : Z * Z) (db : database) : list book :=
  List.filter (λ b, match Sql.decimal (rating_avg b) with
                    | Some q => Sql.numeric_eqb q x
                    | None => false
                    end) (BOOKS db).

(** Two states of the database with the same rows, in [Demo] and in
    [BOOKS]. *)
Definition same_rows (db db' : database) : Prop :=
  Demo db' = Demo db ∧ BOOKS db' = BOOKS db.

(** A computation that, started on the tables [db], changes their rows
    only when it answers with a status below 400. *)
Definition harmless (db : database) (m : M reply) : Prop :=
  ∀ w, store w = db →
    ∀ resp, (m w).1 = Ok (Sent resp) → 400 ≤ status resp →
      same_rows db (store (m w).2).

(** * Properties *)

(** ** The JavaScript operations *)

Example parseInt_examples :
  parseInt (str "2") = num 2 ∧ parseInt (str " -3abc") = num (-3) ∧
  parseInt (str "0x1f") = num 31 ∧ parseInt (str "abc") = nan ∧
  parseInt undefined = nan ∧ parseInt (num 12) = num 12.
Proof. repeat split; reflexivity. Qed.

Example ToNumber_examples :
  ToNumber (str "15") = num 15 ∧ ToNumber (str " 7 ") = num 7 ∧
  ToNumber (str "") = num 0 ∧ ToNumber (str "-4") = num (-4) ∧
  ToNumber (str "4x") = nan ∧ ToNumber undefined = nan.
Proof. repeat split; reflexivity. Qed.

Example endsWith_examples :
  endsWith "Key (name)=(a) already exists." "exists." = true ∧
  endsWith "exists" "exists." = false.
Proof. split; reflexivity. Qed.

Example not_a_number_examples :
  not_a_number (str "ten") ∧ not_a_number (str " -") ∧ not_a_number nan
  ∧ ¬ not_a_number (str "2.5") ∧ ¬ not_a_number (str ".5")
  ∧ ¬ not_a_number (str "Infinity") ∧ ¬ not_a_number (str "")
  ∧ ¬ not_a_number (str "12").
Proof.
  repeat split; try done.
  - by intros (_ & [=] & _).
  - by intros (_ & _ & ? & _).
  - by intros (_ & _ & _ & ? & _).
  - by intros [? _].
  - by intros (_ & [=] & _).
Qed.

Lemma ToNumber_cases v : ToNumber v = nan ∨ ∃ z, ToNumber v = num z.
Proof.
  destruct v as [| |z|s]; simpl; eauto.
  case_bool_decide; eauto.
  destruct (Numeral.sign _) as [sg r].
  destruct (Numeral.digits 10 None r) as [[n|] [|a t]]; eauto.
Qed.

Lemma parseInt_cases v : parseInt v = nan ∨ ∃ z, parseInt v = num z.
Proof.
  unfold parseInt.
  destruct (Numeral.sign _) as [sg s], (Numeral.prefix0x s) as [radix s'].
  destruct (Numeral.digits radix None s').1; eauto.
Qed.

Lemma js_ge_num x y : js_ge (num x) (num y) = (x >=? y).
Proof. reflexivity. Qed.

Lemma js_le_num x y : js_le (num x) (num y) = (x <=? y).
Proof. reflexivity. Qed.

Lemma js_gt_num x y : js_gt (num x) (num y) = (x >? y).
Proof. reflexivity. Qed.


(** ** Strings *)








(** ** Numerals *)


















(** ** Running a computation *)

Lemma run_bind {A B} (m : M A) (f : A → M B) w :
  (m ≫= f) w =
  match m w with
  | (Ok a, w') => f a w'
  | (Throw e, w') => (Throw e, w')
  end.
Proof. reflexivity. Qed.

Lemma pool_query_fault st w e :
  head (faults w) = Some (Some e) →
  pool_query st w =
  (Throw (DatabaseError e),
   {| store := store w; faults := tail (faults w); queries := queries w ++ [st];
      visited := visited w |}).
Proof. intros H. unfold pool_query. rewrite H. reflexivity. Qed.


Lemma pool_query_result st db log vis r db' :
  execute st db = inr (r, db') →
  pool_query st {| store := db; faults := []; queries := log; visited := vis |} =
  (Ok r, {| store := db'; faults := []; queries := log ++ [st]; visited := vis |}).
Proof. intros H. unfold pool_query. cbn. rewrite H. reflexivity. Qed.

(** ** The statements *)

Global Instance DemoID_le_total : Total Sql.DemoID_le.
Proof. intros a b. unfold Sql.DemoID_le. lia. Qed.

Global Instance DemoID_le_trans : Transitive Sql.DemoID_le.
Proof. intros a b c. unfold Sql.DemoID_le. lia. Qed.





Lemma execute_page db l o :
  0 ≤ l → 0 ≤ o →
  execute (SelectDemoPage (num l) (num o)) db =
  inr (Sql.returning
         (Sql.demo_columns <$>
            take (Z.to_nat l) (drop (Z.to_nat o) (Sql.by_DemoID (Demo db)))), db).
Proof.
  intros. cbn.
  rewrite (proj2 (Z.ltb_ge l 0)), (proj2 (Z.ltb_ge o 0)) by lia. reflexivity.
Qed.

Lemma execute_after db l c :
  0 ≤ l →
  execute (SelectDemoAfter (num l) (num c)) db =
  inr (Sql.returning
         (Sql.demo_star <$>
            take (Z.to_nat l)
              (Sql.by_DemoID (List.filter (λ d, c <? demoid d) (Demo db)))), db).
Proof. intros. cbn. rewrite (proj2 (Z.ltb_ge l 0)) by lia. reflexivity. Qed.




(** ** Pagination *)

Section pagination.

Variable vf : validation.


(** In this model the limit is a positive integer and the offset or
    cursor one that is not negative, whatever the query. *)
Lemma limit_of_num q : ∃ l, Library.limit_of vf q = num l ∧ 0 < l.
Proof.
  unfold Library.limit_of.
  destruct (isNumberProvided vf q); cbn [andb]; [|exists 10; by split].
  destruct (ToNumber_cases q) as [E|[z E]]; rewrite E; [exists 10; by split|].
  rewrite js_gt_num. destruct (Z.gtb_spec z 0); [exists z|exists 10]; by split.
Qed.

Lemma start_of_num q : ∃ c, Library.start_of vf q = num c ∧ 0 ≤ c.
Proof.
  unfold Library.start_of.
  destruct (isNumberProvided vf q); cbn [andb]; [|exists 0; by split].
  destruct (ToNumber_cases q) as [E|[z E]]; rewrite E; [exists 0; by split|].
  rewrite js_ge_num. destruct (Z.geb_spec z 0); [exists z|exists 0]; split; done || lia.
Qed.





Lemma dispatch_offset request w :
  dispatch (Library.libraryRouter vf) GET ["offset"] request w =
  (enter ("GET /offset", 0%nat);;
   Library.offset vf {| query := query request; params := ∅; body := body request |}
     (mret Unhandled)) w.
Proof. reflexivity. Qed.

Lemma dispatch_cursor request w :
  dispatch (Library.libraryRouter vf) GET ["cursor"] request w =
  (enter ("GET /cursor", 0%nat);;
   Library.cursor vf {| query := query request; params := ∅; body := body request |}
     (mret Unhandled)) w.
Proof. reflexivity. Qed.








End pagination.

(** ** The validation chain *)

Section validation_chain.

Variable vf : validation.

Lemma named_check b :
  isStringProvided vf (prop b "name") && isStringProvided vf (prop b "message") = true
  ↔ named vf b.
Proof. unfold named. by rewrite andb_true_iff. Qed.

Lemma priority_check p :
  isNumberProvided vf p && js_ge (parseInt p) (num 1) && js_le (parseInt p) (num 3)
  = true ↔ numeric_priority vf p.
Proof.
  unfold numeric_priority. rewrite !andb_true_iff.
  destruct (parseInt_cases p) as [->|[n ->]].
  - split; [by intros [[_ ?] _]|by intros [_ (n & ? & _)]].
  - rewrite js_ge_num, js_le_num, Z.geb_le, Z.leb_le. split.
    + intros [[? ?] ?]. eauto 6.
    + intros [? (n' & [= <-] & ? & ?)]. auto.
Qed.

Lemma dispatch_PostMessage request w :
  dispatch (Message.messageRouter vf) POST [] request w =
  let request := {| query := query request; params := ∅; body := body request |} in
  (enter ("PostMessage", 0%nat);;
   Message.mwValidNameMessageBody vf request
     (enter ("PostMessage", 1%nat);;
      Message.PostMessage_priority vf request
        (enter ("PostMessage", 2%nat);;
         Message.PostMessage request (mret Unhandled)))) w.
Proof. reflexivity. Qed.

Lemma dispatch_post request w :
  dispatch (Library.libraryRouter vf) POST [] request w =
  let request := {| query := query request; params := ∅; body := body request |} in
  (enter ("POST /", 0%nat);;
   Library.post_name_message vf request
     (enter ("POST /", 1%nat);;
      Library.post_priority vf request
        (enter ("POST /", 2%nat);;
         Library.post request (mret Unhandled)))) w.
Proof. reflexivity. Qed.

Lemma dispatch_DeleteMessagesPri request w :
  dispatch (Message.messageRouter vf) DELETE [] request w =
  let request := {| query := query request; params := ∅; body := body request |} in
  (enter ("DeleteMessagesPri", 0%nat);;
   Message.mwValidPriorityQuery vf request
     (enter ("DeleteMessagesPri", 1%nat);;
      Message.DeleteMessagesPri request (mret Unhandled))) w.
Proof. reflexivity. Qed.


End validation_chain.

(** ** Database failures *)

Lemma answers_send code b : answers (send code b).
Proof. intros w. by eexists. Qed.

Lemma answers_ret r : answers (mret r).
Proof. intros w. by eexists. Qed.

Lemma answers_try_catch m h : (∀ e, answers (h e)) → answers (try_catch m h).
Proof.
  intros Hh w. unfold try_catch.
  destruct (m w) as [[r|e] w'] eqn:E; [by eexists|apply Hh].
Qed.

Lemma answers_enter layer m : answers m → answers (enter layer;; m).
Proof. intros Hm w. rewrite run_bind. apply Hm. Qed.

Lemma answers_if (b : bool) m1 m2 :
  answers m1 → answers m2 → answers (if b then m1 else m2).
Proof. by destruct b. Qed.

Lemma answers_run_stack name i layers request next :
  Forall (λ h : middleware, ∀ next, answers next → answers (h request next)) layers →
  answers next → answers (run_stack name i layers request next).
Proof.
  intros Hl Hn. revert i. induction Hl as [|h layers Hh _ IH]; intros i; [done|].
  cbn [run_stack]. apply answers_enter, Hh, IH.
Qed.

Lemma answers_dispatch routes m url request :
  Forall (λ r, ∀ ps, verb r = m → match_path (path r) url = Some ps →
            Forall (λ h : middleware, ∀ next, answers next →
                      answers (h {| query := query request; params := ps;
                                    body := body request |} next)) (stack r)) routes →
  answers (dispatch routes m url request).
Proof.
  induction 1 as [|r routes Hr _ IH]; [apply answers_ret|].
  cbn [dispatch]. case_bool_decide; [|done].
  destruct (match_path (path r) url) as [ps|] eqn:E; [|done].
  by apply answers_run_stack; [apply Hr|].
Qed.

Ltac answers :=
  repeat first
    [ apply answers_send | apply answers_ret | assumption
    | apply answers_if
    | apply answers_try_catch; intros ? ].

Section failures.

Variable vf : validation.

(** C5, where it fails.  [GET /offset] and [GET /cursor] await their two
    queries outside any [try]: when the connection rejects the first
    query, or answers it and rejects the second, the rejection leaves
    the handler and no response is sent. *)
Theorem paging_rejection_escapes (db : database) (fs : list (option pg_error))
    (q : object) (e : pg_error) :
  (dispatch (Library.libraryRouter vf) GET ["offset"] (with_query q)
     (start db (Some e :: fs))).1 = Throw (DatabaseError e)
  ∧ (dispatch (Library.libraryRouter vf) GET ["cursor"] (with_query q)
       (start db (Some e :: fs))).1 = Throw (DatabaseError e)
  ∧ (dispatch (Library.libraryRouter vf) GET ["offset"] (with_query q)
       (start db (None :: Some e :: fs))).1 = Throw (DatabaseError e)
  ∧ (dispatch (Library.libraryRouter vf) GET ["cursor"] (with_query q)
       (start db (None :: Some e :: fs))).1 = Throw (DatabaseError e).
Proof.
  destruct (limit_of_num vf (prop q "limit")) as (l & Hl & ?).
  destruct (start_of_num vf (prop q "offset")) as (o & Ho & ?).
  destruct (start_of_num vf (prop q "cursor")) as (c & Hc & ?).
  split; [|split; [|split]].
  - rewrite dispatch_offset. unfold Library.offset.
    rewrite run_bind. cbn [enter]. rewrite run_bind.
    by rewrite (pool_query_fault _ _ e).
  - rewrite dispatch_cursor. unfold Library.cursor.
    rewrite run_bind. cbn [enter]. rewrite run_bind.
    by rewrite (pool_query_fault _ _ e).
  - rewrite dispatch_offset. unfold Library.offset. cbn [query with_query].
    rewrite Hl, Ho. rewrite run_bind. cbn [enter]. rewrite run_bind.
    unfold pool_query at 1. cbn [start head faults store tail].
    rewrite execute_page by lia. rewrite run_bind.
    by rewrite (pool_query_fault _ _ e).
  - rewrite dispatch_cursor. unfold Library.cursor. cbn [query with_query].
    rewrite Hl, Hc. rewrite run_bind. cbn [enter]. rewrite run_bind.
    unfold pool_query at 1. cbn [start head faults store tail].
    rewrite execute_after by lia. rewrite run_bind.
    by rewrite (pool_query_fault _ _ e).
Qed.

Lemma length_of_truthy v :
  truthy v = true → ∃ l, ∀ w, length_of v w = (Ok l, w).
Proof. destruct v; try done; by eexists. Qed.

(** Every route of the message router catches what its query throws:
    whatever the request and the failures, a reply comes out. *)
Lemma messageRouter_answers m url request :
  answers (dispatch (Message.messageRouter vf) m url request).
Proof.
  apply answers_dispatch. unfold Message.messageRouter.
  repeat apply Forall_cons_2; try apply Forall_nil_2;
    cbn [path stack]; intros ps _ Hps;
    repeat apply Forall_cons_2; try apply Forall_nil_2; intros next Hnext;
    try (unfold Message.mwValidNameMessageBody, Message.PostMessage_priority,
           Message.PostMessage, Message.GetMessageAuthor, Message.myValidAuthorQuery,
           Message.myValidTitleParam, Message.RetrieveBookTitle,
           Message.GetMessageIsbn, Message.mwValidRatingAverageQuery,
           Message.RetrieveByRatingAvg, Message.RetrieveAllBooks,
           Message.GetAllMessages, Message.mwValidPriorityQuery,
           Message.GetAllMessagesPri, Message.GetMessageName, Message.PutMessage,
           Message.DeleteMessagesPri, Message.DeleteMessage, Message.server_error;
         cbv zeta; by answers).
  - (* publication_year: its length is read once it is known to be truthy *)
    unfold Message.GetMessagePublicationYear, Message.myValidPublicationYearQuery.
    cbn [query].
    destruct (truthy (prop (query request) "publication_year")) eqn:Ht;
      [|by answers].
    destruct (length_of_truthy _ Ht) as [l Hl].
    apply answers_if; [|done]. intros w. rewrite run_bind.
    destruct (isNumberProvided vf _).
    + rewrite run_bind, Hl. cbn [mret M_ret].
      destruct (loose_eq l (num 4)); [|by eexists].
      apply answers_try_catch. intros ?. apply answers_send.
    + by eexists.
  - (* isbn13: the path binds the parameter to a string *)
    unfold Message.myValidIsbn13Param. cbn [params].
    destruct url as [|u1 [|u2 [|? ?]]]; try done; cbn in Hps;
      repeat case_bool_decide; try done.
    injection Hps as <-. intros w. rewrite run_bind.
    destruct (isNumberProvided vf _).
    + rewrite run_bind. cbn [length_of prop mret M_ret].
      change (prop (<["isbn13":=str u2]> ∅) "isbn13") with (str u2).
      cbn [length_of mret M_ret].
      destruct (loose_eq _ _); [apply Hnext|by eexists].
    + by eexists.
Qed.

(** So do the two routes of the library router that write. *)
Lemma libraryRouter_writes_answer url request :
  answers (dispatch (Library.libraryRouter vf) POST url request)
  ∧ answers (dispatch (Library.libraryRouter vf) DELETE url request).
Proof.
  split; apply answers_dispatch; unfold Library.libraryRouter;
    repeat apply Forall_cons_2; try apply Forall_nil_2;
    cbn [verb path stack]; intros ps Hverb Hps; try discriminate Hverb;
    repeat apply Forall_cons_2; try apply Forall_nil_2; intros next Hnext;
    unfold Library.post_name_message, Library.post_priority, Library.post,
      Library.delete_name; cbv zeta; by answers.
Qed.

End failures.

(** ** Rows by name *)

Lemma existsb_named (ds : list demo) n :
  existsb (λ d, bool_decide (name d = n)) ds = false ↔ ∀ d, d ∈ ds → name d ≠ n.
Proof.
  induction ds as [|x ds IH]; cbn [existsb].
  - split; [intros _ d Hd; by inversion Hd|done].
  - rewrite orb_false_iff, IH, bool_decide_eq_false. split.
    + intros [? Hds] d [->|?]%elem_of_cons; auto.
    + intros H. split; [apply H, list_elem_of_here|].
      intros d ?. by apply H, list_elem_of_further.
Qed.

Lemma filter_key_none {A} (key : A → string) (l : list A) k :
  (∀ x, x ∈ l → key x ≠ k) →
  List.filter (λ x, bool_decide (key x = k)) l = [].
Proof.
  induction l as [|x l IH]; intros H; [done|]. cbn [List.filter].
  rewrite bool_decide_false by apply H, list_elem_of_here.
  apply IH. intros y ?. by apply H, list_elem_of_further.
Qed.

(** Under a unique key, the rows with the key of a stored row are that
    row. *)
Lemma filter_key {A} (key : A → string) (l : list A) x :
  NoDup (key <$> l) → x ∈ l →
  List.filter (λ y, bool_decide (key y = key x)) l = [x].
Proof.
  induction l as [|y l IH]; intros Hnd Hin; [by inversion Hin|].
  apply NoDup_cons in Hnd as [Hy Hnd]. cbn [List.filter].
  apply elem_of_cons in Hin as [->|Hin].
  - rewrite bool_decide_true by done. f_equal.
    apply filter_key_none. intros z Hz E. apply Hy. rewrite <- E.
    by apply list_elem_of_fmap_2.
  - rewrite bool_decide_false; [by apply IH|].
    intros E. apply Hy. rewrite E. by apply list_elem_of_fmap_2.
Qed.

Lemma filter_not_named_none (ds : list demo) n :
  (∀ d, d ∈ ds → name d ≠ n) →
  List.filter (λ x, negb (bool_decide (name x = n))) ds = ds.
Proof.
  induction ds as [|x ds IH]; intros H; [done|]. cbn [List.filter].
  rewrite bool_decide_false by apply H, list_elem_of_here. cbn [negb].
  f_equal. apply IH. intros d ?. by apply H, list_elem_of_further.
Qed.

Lemma format_Demo d : Message.format (Sql.demo_star d) = no_book.
Proof. reflexivity. Qed.

Lemma formatted_Demo d :
  prop (Library.format (Sql.demo_star d)) "formatted" =
  str ("{" +:+ pretty (priority d) +:+ "} - [" +:+ name d +:+ "] says: " +:+ message d).
Proof. reflexivity. Qed.

(** ** Creating, updating and deleting messages *)

Lemma run_try_catch {A} (m : M A) (h : exn → M A) w :
  try_catch m h w =
  match m w with
  | (Throw e, w') => h e w'
  | r => r
  end.
Proof. reflexivity. Qed.

Lemma execute_insert db n m p z :
  Sql.int p = Some z →
  (∀ d, d ∈ Demo db → name d ≠ n) →
  let d := {| demoid := DemoID_seq db + 1; name := n; message := m; priority := z |} in
  execute (InsertDemo (str n) (str m) p) db =
  inr (Sql.returning [Sql.demo_star d],
       {| Demo := Demo db ++ [d]; DemoID_seq := DemoID_seq db + 1; BOOKS := BOOKS db |}).
Proof.
  intros Hp Hfresh%existsb_named d. cbn [execute Sql.text ToString].
  by rewrite Hp, Hfresh.
Qed.


Section mutations.

Variable vf : validation.

Lemma dispatch_PutMessage request w :
  dispatch (Message.messageRouter vf) PUT [] request w =
  let request := {| query := query request; params := ∅; body := body request |} in
  (enter ("PutMessage", 0%nat);;
   Message.mwValidNameMessageBody vf request
     (enter ("PutMessage", 1%nat);;
      Message.PutMessage request (mret Unhandled))) w.
Proof. reflexivity. Qed.

Lemma dispatch_DeleteMessage n request w :
  n ≠ "" →
  dispatch (Message.messageRouter vf) DELETE [n] request w =
  (enter ("DeleteMessage", 0%nat);;
   Message.DeleteMessage
     {| query := query request; params := {[ "name" := str n ]};
        body := body request |}
     (mret Unhandled)) w.
Proof.
  intros Hn. unfold Message.messageRouter.
  cbn [dispatch verb path stack label match_path].
  repeat (case_bool_decide; try done).
Qed.

Lemma dispatch_delete_name n request w :
  n ≠ "" →
  dispatch (Library.libraryRouter vf) DELETE [n] request w =
  (enter ("DELETE /:name", 0%nat);;
   Library.delete_name
     {| query := query request; params := {[ "name" := str n ]};
        body := body request |}
     (mret Unhandled)) w.
Proof.
  intros Hn. unfold Library.libraryRouter.
  cbn [dispatch verb path stack label match_path].
  repeat (case_bool_decide; try done).
Qed.

(** What both routers do with a valid message under a fresh name. *)
Lemma PostMessage_run db b n m p z :
  prop b "name" = str n → prop b "message" = str m → prop b "priority" = p →
  named vf b → numeric_priority vf p → Sql.int p = Some z →
  (∀ d, d ∈ Demo db → name d ≠ n) →
  let d := {| demoid := DemoID_seq db + 1; name := n; message := m; priority := z |} in
  let db' := {| Demo := Demo db ++ [d]; DemoID_seq := DemoID_seq db + 1;
                BOOKS := BOOKS db |} in
  dispatch (Message.messageRouter vf) POST [] (with_body b) (start db []) =
  (Ok (Sent {| status := 201; sent := Entry (Text no_book) |}),
   {| store := db'; faults := []; queries := [InsertDemo (str n) (str m) p];
      visited := [("PostMessage", 0%nat); ("PostMessage", 1%nat);
                  ("PostMessage", 2%nat)] |})
  ∧ dispatch (Library.libraryRouter vf) POST [] (with_body b) (start db []) =
    (Ok (Sent {| status := 201;
                 sent := Entry (Obj (Library.format (Sql.demo_star d))) |}),
     {| store := db'; faults := []; queries := [InsertDemo (str n) (str m) p];
        visited := [("POST /", 0%nat); ("POST /", 1%nat); ("POST /", 2%nat)] |}).
Proof.
  intros Hn Hm Hp Hnamed%named_check Hprio%priority_check Hz Hfresh d db'.
  rewrite dispatch_PostMessage, dispatch_post. cbv zeta.
  unfold Message.mwValidNameMessageBody, Library.post_name_message,
    Message.PostMessage_priority, Library.post_priority,
    Message.PostMessage, Library.post.
  cbn [body with_body]. rewrite Hn, Hm, Hp.
  rewrite Hn, Hm in Hnamed.
  rewrite !run_bind. cbn [enter start store faults queries visited app].
  rewrite Hnamed. rewrite !run_bind. cbn [enter store faults queries visited app].
  rewrite Hprio. rewrite !run_bind. cbn [enter store faults queries visited app].
  rewrite !run_try_catch, !run_bind.
  rewrite !(pool_query_result _ _ _ _ _ _ (execute_insert db n m p z Hz Hfresh)).
  cbn [row0 rows Sql.returning mret M_ret]. rewrite !run_bind.
  cbn [mret M_ret send app]. by rewrite format_Demo.
Qed.


(** Any other failure of the statement: both routers answer 500. *)
Lemma PostMessage_failure db fs b e :
  named vf b → numeric_priority vf (prop b "priority") →
  (∀ s, detail e = Some s → endsWith s "exists." = false
                            ∧ endsWith s "already exists." = false) →
  let failure :=
    Ok (Sent {| status := 500; sent := Message "server error - contact support" |}) in
  (dispatch (Message.messageRouter vf) POST [] (with_body b)
     (start db (Some e :: fs))).1 = failure
  ∧ (dispatch (Library.libraryRouter vf) POST [] (with_body b)
       (start db (Some e :: fs))).1 = failure.
Proof.
  intros Hnamed%named_check Hprio%priority_check He failure.
  rewrite dispatch_PostMessage, dispatch_post. cbv zeta.
  unfold Message.mwValidNameMessageBody, Library.post_name_message,
    Message.PostMessage_priority, Library.post_priority,
    Message.PostMessage, Library.post.
  cbn [body with_body].
  rewrite !run_bind. cbn [enter start store faults queries visited app].
  rewrite Hnamed. rewrite !run_bind. cbn [enter store faults queries visited app].
  rewrite Hprio. rewrite !run_bind. cbn [enter store faults queries visited app].
  rewrite !run_try_catch, !run_bind.
  rewrite !(pool_query_fault _ _ e) by done.
  unfold detail_of. destruct e as [[s|]]; [|done].
  destruct (He s eq_refl) as [E1 E2]. cbn [ToString]. rewrite E1, E2.
  by rewrite !andb_false_r.
Qed.

Lemma numeric_priority_num z :
  isNumberProvided vf (num z) = true → 1 ≤ z ≤ 3 → numeric_priority vf (num z).
Proof.
  intros ? ?. split; [done|]. exists z. split; [|done].
  assert (z = 1 ∨ z = 2 ∨ z = 3) as [->|[->| ->]] by lia; reflexivity.
Qed.

(** C6, where it fails.  A valid message under a fresh name is stored
    and answered with 201, but the entry the message router sends is
    the line of a book, read off a row that has none of the columns of
    a book; the library router sends the row with the line
    "{priority} - [name] says: message". *)
Theorem created_entry (db : database) (n m : string) (z : Z) :
  isStringProvided vf (str n) = true →
  isStringProvided vf (str m) = true →
  isNumberProvided vf (num z) = true →
  1 ≤ z ≤ 3 →
  (∀ d, d ∈ Demo db → name d ≠ n) →
  let b : object := {[ "name" := str n; "message" := str m; "priority" := num z ]} in
  (dispatch (Message.messageRouter vf) POST [] (with_body b) (start db [])).1 =
  Ok (Sent {| status := 201; sent := Entry (Text no_book) |})
  ∧ no_book ≠ "{" +:+ pretty z +:+ "} - [" +:+ n +:+ "] says: " +:+ m
  ∧ ∃ o : object,
      (dispatch (Library.libraryRouter vf) POST [] (with_body b) (start db [])).1 =
      Ok (Sent {| status := 201; sent := Entry (Obj o) |})
      ∧ prop o "formatted" =
        str ("{" +:+ pretty z +:+ "} - [" +:+ n +:+ "] says: " +:+ m).
Proof.
  intros Hn Hm Hz Hrange Hfresh b.
  destruct (PostMessage_run db b n m (num z) z) as [-> ->];
    [done|done|done|by split|by apply numeric_priority_num|done|done|].
  split; [done|]. split.
  - assert (z = 1 ∨ z = 2 ∨ z = 3) as [->|[->| ->]] by lia; discriminate.
  - eexists. split; [done|]. apply formatted_Demo.
Qed.

Lemma set_Demo_same db : Sql.set_Demo (Demo db) db = db.
Proof. by destruct db. Qed.

(** Deleting by a name that no row carries: 404 from both routers, and
    the table is as it was. *)
Lemma DeleteMessage_not_found db request n :
  n ≠ "" → (∀ d, d ∈ Demo db → name d ≠ n) →
  dispatch (Message.messageRouter vf) DELETE [n] request (start db []) =
  (not_found "Name not found",
   {| store := db; faults := []; queries := [DeleteDemoByName (str n)];
      visited := [("DeleteMessage", 0%nat)] |})
  ∧ dispatch (Library.libraryRouter vf) DELETE [n] request (start db []) =
    (not_found "Name not found",
     {| store := db; faults := []; queries := [DeleteDemoByName (str n)];
        visited := [("DELETE /:name", 0%nat)] |}).
Proof.
  intros Hn Hnone.
  rewrite dispatch_DeleteMessage, dispatch_delete_name by done.
  unfold Message.DeleteMessage, Library.delete_name. cbn [params].
  change (prop {[ "name" := str n ]} "name") with (str n).
  rewrite !run_bind. cbn [enter start store faults queries visited app].
  rewrite !run_try_catch, !run_bind.
  unfold pool_query. cbn [head faults store execute Sql.text ToString].
  rewrite (filter_key_none name), filter_not_named_none, set_Demo_same by done.
  done.
Qed.

(** Deleting by the name of a row, names being unique. *)
Lemma DeleteMessage_run db request d :
  name d ≠ "" → NoDup (name <$> Demo db) → d ∈ Demo db →
  let db' :=
    Sql.set_Demo (List.filter (λ x, negb (bool_decide (name x = name d))) (Demo db)) db in
  dispatch (Message.messageRouter vf) DELETE [name d] request (start db []) =
  (Ok (Sent {| status := 200; sent := Entry (Text ("Deleted: " +:+ no_book)) |}),
   {| store := db'; faults := []; queries := [DeleteDemoByName (str (name d))];
      visited := [("DeleteMessage", 0%nat)] |})
  ∧ dispatch (Library.libraryRouter vf) DELETE [name d] request (start db []) =
    (Ok (Sent {|
       status := 200;
       sent := Entry (Text ("Deleted: " +:+ "{" +:+ pretty (priority d) +:+ "} - [" +:+
                            name d +:+ "] says: " +:+ message d)) |}),
     {| store := db'; faults := []; queries := [DeleteDemoByName (str (name d))];
        visited := [("DELETE /:name", 0%nat)] |}).
Proof.
  intros Hn Hnd Hd db'.
  rewrite dispatch_DeleteMessage, dispatch_delete_name by done.
  unfold Message.DeleteMessage, Library.delete_name. cbn [params].
  change (prop {[ "name" := str (name d) ]} "name") with (str (name d)).
  rewrite !run_bind. cbn [enter start store faults queries visited app].
  rewrite !run_try_catch, !run_bind.
  unfold pool_query. cbn [head faults store execute Sql.text ToString].
  rewrite (filter_key name) by done.
  cbn [fmap list_fmap Sql.returning rowCount length rows row0].
  change (Z.of_nat 1 =? 1) with true. cbv iota.
  rewrite !run_bind. cbn [mret M_ret send app tail queries visited].
  by rewrite format_Demo, formatted_Demo.
Qed.

(** The rows a statement [DELETE ... WHERE priority = z] removes are
    those of that priority, all of them; the others stay. *)
Lemma DeleteMessagesPri_run db q p z :
  prop q "priority" = p → numeric_priority vf p → Sql.int p = Some z →
  let deleted := List.filter (λ d, priority d =? z) (Demo db) in
  let db' := Sql.set_Demo (List.filter (λ d, negb (priority d =? z)) (Demo db)) db in
  dispatch (Message.messageRouter vf) DELETE [] (with_query q) (start db []) =
  (match deleted with
   | [] => not_found ("No Priority " +:+ ToString p +:+ " messages found")
   | _ => Ok (Sent {| status := 200;
                      sent := Entries ((λ _, Text no_book) <$> deleted) |})
   end,
   {| store := db'; faults := []; queries := [DeleteDemoByPriority p];
      visited := [("DeleteMessagesPri", 0%nat); ("DeleteMessagesPri", 1%nat)] |}).
Proof.
  intros Hp Hprio%priority_check Hz deleted db'.
  rewrite dispatch_DeleteMessagesPri. cbv zeta.
  unfold Message.mwValidPriorityQuery, Message.DeleteMessagesPri.
  cbn [query with_query]. rewrite Hp.
  rewrite !run_bind. cbn [enter start store faults queries visited app].
  rewrite Hprio. rewrite !run_bind. cbn [enter store faults queries visited app].
  rewrite run_try_catch, run_bind.
  unfold pool_query. cbn [head faults store execute]. rewrite Hz.
  fold deleted. fold db'. cbn [Sql.returning rowCount rows].
  rewrite length_fmap. destruct deleted as [|d ds] eqn:E; [done|].
  cbn [length Z.of_nat Z.ltb Z.compare send mret M_ret app].
  do 5 f_equal. rewrite <- list_fmap_compose. apply list_fmap_ext.
  intros i x _. cbn. by rewrite format_Demo.
Qed.

(** C7, where it fails.  Deleting by the name of a stored message
    answers 200, but the entry the message router sends is "Deleted: "
    and the line of a book read off a row of [Demo]; the library router
    sends "Deleted: {priority} - [name] says: message". *)
Theorem deleted_entry (db : database) (d : demo) :
  name d ≠ "" → 1 ≤ priority d ≤ 3 →
  NoDup (name <$> Demo db) → d ∈ Demo db →
  let line := "{" +:+ pretty (priority d) +:+ "} - [" +:+ name d +:+ "] says: " +:+
              message d in
  (dispatch (Message.messageRouter vf) DELETE [name d] no_fields (start db [])).1 =
  Ok (Sent {| status := 200; sent := Entry (Text ("Deleted: " +:+ no_book)) |})
  ∧ "Deleted: " +:+ no_book ≠ "Deleted: " +:+ line
  ∧ (dispatch (Library.libraryRouter vf) DELETE [name d] no_fields (start db [])).1 =
    Ok (Sent {| status := 200; sent := Entry (Text ("Deleted: " +:+ line)) |}).
Proof.
  intros Hn Hp Hnd Hd line.
  destruct (DeleteMessage_run db no_fields d Hn Hnd Hd) as [-> ->].
  split; [done|]. split; [|done]. subst line.
  assert (priority d = 1 ∨ priority d = 2 ∨ priority d = 3) as [->|[->| ->]] by lia;
    discriminate.
Qed.

Lemma execute_update db m n :
  execute (UpdateDemoMessage (str m) (str n)) db =
  inr (Sql.returning
         (Sql.demo_star <$>
            (updated m n <$> List.filter (λ d, bool_decide (name d = n)) (Demo db))),
       Sql.set_Demo (updated m n <$> Demo db) db).
Proof.
  cbn [execute Sql.text ToString].
  rewrite (list_fmap_ext
             (λ d, {| demoid := demoid d; name := name d; message := m;
                      priority := priority d |})
             (updated m n) (List.filter (λ d, bool_decide (name d = n)) (Demo db)));
    [reflexivity|].
  intros i d Hd.
  apply list_elem_of_lookup_2, list_elem_of_In, filter_In in Hd as [_ Hd].
  unfold updated. by rewrite Hd.
Qed.


(** The update leaves the keys, the names and the priorities of all
    rows, and the rows under another name, as they were. *)
Lemma updated_frame (ds : list demo) m n :
  demoid <$> (updated m n <$> ds) = demoid <$> ds
  ∧ name <$> (updated m n <$> ds) = name <$> ds
  ∧ priority <$> (updated m n <$> ds) = priority <$> ds
  ∧ (∀ i d, ds !! i = Some d → name d ≠ n → (updated m n <$> ds) !! i = Some d)
  ∧ (∀ i d, ds !! i = Some d → name d = n →
       message <$> (updated m n <$> ds) !! i = Some m).
Proof.
  repeat split.
  - rewrite <- list_fmap_compose. apply list_fmap_ext. intros i d _. cbn.
    unfold updated. by case_bool_decide.
  - rewrite <- list_fmap_compose. apply list_fmap_ext. intros i d _. cbn.
    unfold updated. by case_bool_decide.
  - rewrite <- list_fmap_compose. apply list_fmap_ext. intros i d _. cbn.
    unfold updated. by case_bool_decide.
  - intros i d Hi Hd. rewrite list_lookup_fmap, Hi. cbn.
    unfold updated. by rewrite bool_decide_false.
  - intros i d Hi Hd. rewrite list_lookup_fmap, Hi. cbn.
    unfold updated. by rewrite bool_decide_true.
Qed.

(** What [PUT /] does with a name and a message provided, names being
    unique: a stored name has its message replaced, and the entry sent
    is "Updated: " and the line of a book; an unknown name is answered
    404 and the table is as it was. *)
Lemma PutMessage_run db b n m :
  prop b "name" = str n → prop b "message" = str m → named vf b →
  NoDup (name <$> Demo db) →
  dispatch (Message.messageRouter vf) PUT [] (with_body b) (start db []) =
  (match List.filter (λ d, bool_decide (name d = n)) (Demo db) with
   | [] => not_found "Name not found"
   | _ => Ok (Sent {| status := 200; sent := Entry (Text ("Updated: " +:+ no_book)) |})
   end,
   {| store := Sql.set_Demo (updated m n <$> Demo db) db; faults := [];
      queries := [UpdateDemoMessage (str m) (str n)];
      visited := [("PutMessage", 0%nat); ("PutMessage", 1%nat)] |}).
Proof.
  intros Hn Hm Hnamed%named_check Hnd.
  rewrite dispatch_PutMessage. cbv zeta.
  unfold Message.mwValidNameMessageBody, Message.PutMessage.
  cbn [body with_body].
  rewrite !run_bind. cbn [enter start store faults queries visited app].
  rewrite Hnamed. rewrite !run_bind. cbn [enter store faults queries visited app].
  rewrite run_try_catch, run_bind, Hn, Hm.
  rewrite (pool_query_result _ _ _ _ _ _ (execute_update db m n)).
  destruct (List.filter _ (Demo db)) as [|d ds] eqn:E; [done|].
  assert (ds = []) as ->.
  { assert (d ∈ Demo db ∧ name d = n) as [Hd <-].
    { assert (d ∈ d :: ds) as Hin by apply list_elem_of_here.
      rewrite <- E in Hin.
      apply list_elem_of_In, filter_In in Hin as [? ?%bool_decide_eq_true].
      by rewrite list_elem_of_In. }
    rewrite (filter_key name _ d Hnd Hd) in E. by injection E. }
  cbn [fmap list_fmap Sql.returning rowCount length rows row0].
  change (Z.of_nat 1 =? 1) with true. cbv iota.
  rewrite !run_bind. cbn [mret M_ret send app tail queries visited].
  by rewrite format_Demo.
Qed.

(** C8, where it fails.  The update is keyed on the name and replaces
    the message only; but for a stored name the entry sent is
    "Updated: " and the line of a book read off a row of [Demo]: the
    response does not carry the updated record. *)
Theorem updated_entry (db : database) (d : demo) (m : string) :
  isStringProvided vf (str (name d)) = true →
  isStringProvided vf (str m) = true →
  NoDup (name <$> Demo db) → d ∈ Demo db →
  let b : object := {[ "name" := str (name d); "message" := str m ]} in
  dispatch (Message.messageRouter vf) PUT [] (with_body b) (start db []) =
  (Ok (Sent {| status := 200; sent := Entry (Text ("Updated: " +:+ no_book)) |}),
   {| store := Sql.set_Demo (updated m (name d) <$> Demo db) db; faults := [];
      queries := [UpdateDemoMessage (str m) (str (name d))];
      visited := [("PutMessage", 0%nat); ("PutMessage", 1%nat)] |}).
Proof.
  intros Hn Hm Hnd Hd b.
  rewrite (PutMessage_run db b (name d) m); [|done|done|by split|done].
  by rewrite (filter_key name _ d Hnd Hd).
Qed.


End mutations.

(** ** Books *)

Lemma keeps_pool_query st : keeps (pool_query st).
Proof.
  intros w. unfold pool_query.
  destruct (head (faults w)) as [[e|]|]; [done|..];
    by destruct (execute st (store w)) as [[e db]|[r db]].
Qed.

Lemma keeps_send code b : keeps (send code b).
Proof. done. Qed.

Lemma keeps_bind {A B} (m : M A) (k : A → M B) :
  keeps m → (∀ a, keeps (k a)) → keeps (m ≫= k).
Proof.
  intros Hm Hk w. rewrite run_bind. specialize (Hm w).
  destruct (m w) as [[a|e] w']; [|done]. cbn in Hm. by rewrite Hk.
Qed.

Lemma keeps_try_catch {A} (m : M A) h :
  keeps m → (∀ e, keeps (h e)) → keeps (try_catch m h).
Proof.
  intros Hm Hh w. rewrite run_try_catch. specialize (Hm w).
  destruct (m w) as [[a|e] w']; [done|]. cbn in Hm. by rewrite Hh.
Qed.

Lemma keeps_if {A} (b : bool) (m1 m2 : M A) :
  keeps m1 → keeps m2 → keeps (if b then m1 else m2).
Proof. by destruct b. Qed.

Lemma replies_send code b : replies (send code b).
Proof. intros w. by eexists. Qed.

Lemma replies_if (b : bool) m1 m2 :
  replies m1 → replies m2 → replies (if b then m1 else m2).
Proof. by destruct b. Qed.

Lemma replies_or_throws_send code b : replies_or_throws (send code b).
Proof. intros w. left. by eexists. Qed.

Lemma replies_or_throws_if (b : bool) m1 m2 :
  replies_or_throws m1 → replies_or_throws m2 →
  replies_or_throws (if b then m1 else m2).
Proof. by destruct b. Qed.

Lemma replies_or_throws_bind {A} (m : M A) k :
  (∀ a, replies_or_throws (k a)) → replies_or_throws (m ≫= k).
Proof.
  intros Hk w. rewrite run_bind.
  destruct (m w) as [[a|e] w']; [apply Hk|right; by eexists].
Qed.

Lemma replies_try_catch m h :
  replies_or_throws m → (∀ e, replies (h e)) → replies (try_catch m h).
Proof.
  intros Hm Hh w. rewrite run_try_catch.
  destruct (Hm w) as [[r E]|[e E]]; destruct (m w) as [[a|e'] w']; cbn in E;
    simplify_eq; [by eexists|apply Hh].
Qed.

Lemma enter_then layer (m : M reply) w :
  keeps m → replies m →
  visited ((enter layer;; m) w).2 = visited w ++ [layer]
  ∧ ∃ r, ((enter layer;; m) w).1 = Ok (Sent r).
Proof.
  intros Hk Hr. rewrite run_bind. cbn [enter]. split; [by rewrite Hk|apply Hr].
Qed.

Ltac quiet :=
  repeat first
    [ apply keeps_send | apply keeps_pool_query
    | apply keeps_if | apply keeps_try_catch | apply keeps_bind
    | apply replies_send | apply replies_if
    | apply replies_try_catch | apply replies_or_throws_send
    | apply replies_or_throws_if | apply replies_or_throws_bind
    | intros ? ].

Section books.

Variable vf : validation.

Lemma dispatch_GetMessageIsbn s request :
  s ≠ "" →
  ∃ next, ∀ w,
    dispatch (Message.messageRouter vf) GET ["isbn13"; s] request w =
    let request :=
      {| query := query request; params := {[ "isbn13" := str s ]};
         body := body request |} in
    (enter ("GetMessageIsbn", 0%nat);;
     Message.myValidIsbn13Param vf request
       (enter ("GetMessageIsbn", 1%nat);;
        Message.GetMessageIsbn request next)) w.
Proof.
  intros Hs. eexists. intros w. unfold Message.messageRouter.
  cbn [dispatch verb path stack label match_path run_stack fmap option_fmap
         option_map].
  rewrite (bool_decide_true (GET = GET)) by done.
  rewrite (bool_decide_false (POST = GET)) by done.
  rewrite (bool_decide_true ("isbn13" = "isbn13")) by done.
  rewrite (bool_decide_false (s = "")) by done.
  reflexivity.
Qed.

Lemma execute_isbn13 db s :
  execute (SelectBooksByIsbn13 (str s)) db =
  inr (Sql.returning
         (Sql.book_columns <$>
            List.filter (λ b, bool_decide (isbn13 b = s)) (BOOKS db)), db).
Proof. reflexivity. Qed.

(** The columns of a book in its row. *)
Lemma book_columns_full b :
  prop (Sql.book_columns b) "isbn13" = str (isbn13 b)
  ∧ prop (Sql.book_columns b) "authors" = str (authors b)
  ∧ prop (Sql.book_columns b) "publication_year" = num (publication_year b)
  ∧ prop (Sql.book_columns b) "title" = str (title b)
  ∧ prop (Sql.book_columns b) "rating_avg" = str (rating_avg b).
Proof. repeat split. Qed.

Lemma isbn13_param_run s (request : request) (next : M reply) w :
  prop (params request) "isbn13" = str s →
  Message.myValidIsbn13Param vf request next w =
  if isNumberProvided vf (str s) && bool_decide (String.length s = 13%nat)
  then next w
  else send 400
         (Message "Invalid or missing isbn13 - please refer to documentation") w.
Proof.
  intros Hs. unfold Message.myValidIsbn13Param. rewrite Hs, run_bind.
  destruct (isNumberProvided vf (str s)); [|done].
  rewrite run_bind. cbn [length_of mret M_ret loose_eq ToNumber andb].
  case_bool_decide as E.
  - rewrite E. reflexivity.
  - destruct (Z.eqb_spec (Z.of_nat (String.length s)) 13); [lia|done].
Qed.

(** C9, as the code has it.  [GET /isbn13/:isbn13]: the check is the one
    the code makes, [isNumberProvided] and a length of 13.  A parameter
    that [isNumberProvided] refuses, or that has not 13 characters, is
    answered 400 and no statement is sent; one that passes and that no
    book carries is answered 404, "No book associated with this isbn13
    was found"; one that passes and that a book carries, keys being
    unique, is answered 200 with the row of that book, all five
    columns, as entry. *)
Theorem book_by_isbn13 (db : database) (s : string) :
  s ≠ "" →
  let run :=
    dispatch (Message.messageRouter vf) GET ["isbn13"; s] no_fields (start db []) in
  (¬ valid_isbn13 vf s →
     run = (bad_request "Invalid or missing isbn13 - please refer to documentation",
            entered db [] [("GetMessageIsbn", 0%nat)]))
  ∧ (valid_isbn13 vf s → (∀ b, b ∈ BOOKS db → isbn13 b ≠ s) →
     run.1 = not_found "No book associated with this isbn13 was found")
  ∧ (∀ b, valid_isbn13 vf s → NoDup (isbn13 <$> BOOKS db) → b ∈ BOOKS db →
          isbn13 b = s →
     run.1 = Ok (Sent {| status := 200; sent := Entry (Obj (Sql.book_columns b)) |})
     ∧ prop (Sql.book_columns b) "isbn13" = str (isbn13 b)
     ∧ prop (Sql.book_columns b) "authors" = str (authors b)
     ∧ prop (Sql.book_columns b) "publication_year" = num (publication_year b)
     ∧ prop (Sql.book_columns b) "title" = str (title b)
     ∧ prop (Sql.book_columns b) "rating_avg" = str (rating_avg b)).
Proof.
  intros Hs run. destruct (dispatch_GetMessageIsbn s no_fields Hs) as [next Hrun].
  subst run. rewrite Hrun. cbv zeta. clear Hrun.
  rewrite run_bind. cbn [enter start store faults queries visited app].
  rewrite (isbn13_param_run s) by done.
  split; [|split].
  - intros Hno. destruct (isNumberProvided vf (str s)) eqn:E1; [|done].
    case_bool_decide as E2; [|done]. by destruct Hno.
  - intros [-> Hlen] Hnone. rewrite bool_decide_true by done. cbn [andb].
    rewrite run_bind. cbn [enter store faults queries visited app].
    unfold Message.GetMessageIsbn. cbn [params].
    change (prop {[ "isbn13" := str s ]} "isbn13") with (str s).
    rewrite run_try_catch, run_bind.
    rewrite (pool_query_result _ _ _ _ _ _ (execute_isbn13 db s)).
    by rewrite (filter_key_none isbn13).
  - intros b [-> Hlen] Hnd Hb <-. rewrite bool_decide_true by done. cbn [andb].
    rewrite run_bind. cbn [enter store faults queries visited app].
    unfold Message.GetMessageIsbn. cbn [params].
    change (prop {[ "isbn13" := str (isbn13 b) ]} "isbn13") with (str (isbn13 b)).
    rewrite run_try_catch, run_bind.
    rewrite (pool_query_result _ _ _ _ _ _ (execute_isbn13 db (isbn13 b))).
    rewrite (filter_key isbn13) by done.
    split; [done|apply book_columns_full].
Qed.

(** The four routes of [GET /], in the order of their registration. *)
Lemma dispatch_root request w :
  dispatch (Message.messageRouter vf) GET [] request w =
  let request := {| query := query request; params := ∅; body := body request |} in
  (enter ("GetMessageAuthor", 0%nat);;
   Message.GetMessageAuthor vf request
     (enter ("GetMessagePublicationYear", 0%nat);;
      Message.GetMessagePublicationYear vf request
        (enter ("RetrieveByRatingAvg", 0%nat);;
         Message.mwValidRatingAverageQuery vf request
           (enter ("RetrieveByRatingAvg", 1%nat);;
            Message.RetrieveByRatingAvg request
              (enter ("GetAllMessagesPri", 0%nat);;
               Message.mwValidPriorityQuery vf request
                 (enter ("GetAllMessagesPri", 1%nat);;
                  Message.GetAllMessagesPri request (mret Unhandled))))))) w.
Proof. reflexivity. Qed.

Lemma publication_year_run (request : request) (next : M reply) w :
  truthy (prop (query request) "publication_year") = true →
  ∃ ok : bool,
    Message.myValidPublicationYearQuery vf request next w =
    if ok then next w
    else send 400
           (Message "Invalid or missing publication_year - please refer to documentation")
           w.
Proof.
  intros Ht. unfold Message.myValidPublicationYearQuery. rewrite run_bind.
  destruct (length_of_truthy _ Ht) as [l Hl].
  destruct (isNumberProvided vf _).
  - rewrite run_bind, Hl. exists (loose_eq l (num 4)). cbn [mret M_ret].
    by destruct (loose_eq l (num 4)).
  - by exists false.
Qed.

Lemma authors_only_check q :
  truthy (prop q "authors") && negb (truthy (prop q "rating_avg"))
  && negb (truthy (prop q "publication_year")) = true ↔ authors_only q.
Proof.
  unfold authors_only. rewrite !andb_true_iff, !negb_true_iff. tauto.
Qed.

Lemma publication_year_only_check q :
  truthy (prop q "publication_year") && negb (truthy (prop q "rating_avg"))
  && negb (truthy (prop q "authors")) = true ↔ publication_year_only q.
Proof.
  unfold publication_year_only. rewrite !andb_true_iff, !negb_true_iff. tauto.
Qed.

(** C10, as the code has it.  Every [GET /] is answered by one of the
    first three routes: by the authors handler exactly when authors
    alone is given, by the publication_year handler exactly when
    publication_year alone is given, and in every other case the
    request reaches the check of rating_avg.  That check answers 400,
    "Invalid or missing rating_avg", when [isNumberProvided] refuses
    rating_avg; when it accepts rating_avg the rating_avg handler
    answers.  No layer of the route that retrieves messages by priority
    is ever entered. *)
Theorem root_get_routes (db : database) (fs : list (option pg_error)) (q : object) :
  let run := dispatch (Message.messageRouter vf) GET [] (with_query q) (start db fs) in
  (∃ r, run.1 = Ok (Sent r))
  ∧ (∀ i, ("GetAllMessagesPri", i) ∉ visited run.2)
  ∧ (visited run.2 = by_authors ↔ authors_only q)
  ∧ (visited run.2 = by_year ↔ publication_year_only q)
  ∧ (¬ authors_only q → ¬ publication_year_only q →
     if isNumberProvided vf (prop q "rating_avg")
     then visited run.2 = by_rating
     else run =
          (bad_request "Invalid or missing rating_avg - please refer to documentation",
           entered db fs rating_check)).
Proof.
  intros run.
  assert (Hcases :
    (authors_only q ∧ visited run.2 = by_authors ∧ ∃ r, run.1 = Ok (Sent r))
    ∨ (¬ authors_only q ∧ publication_year_only q ∧ visited run.2 = by_year
       ∧ ∃ r, run.1 = Ok (Sent r))
    ∨ (¬ authors_only q ∧ ¬ publication_year_only q
       ∧ (∃ r, run.1 = Ok (Sent r))
       ∧ if isNumberProvided vf (prop q "rating_avg")
         then visited run.2 = by_rating
         else run =
              (bad_request
                 "Invalid or missing rating_avg - please refer to documentation",
               entered db fs rating_check))).
  { subst run. rewrite dispatch_root. cbv zeta. cbn [query with_query body].
    unfold Message.GetMessageAuthor. cbv zeta. cbn [query].
    destruct (truthy (prop q "authors") && negb (truthy (prop q "rating_avg"))
              && negb (truthy (prop q "publication_year"))) eqn:Ea.
    { left. apply authors_only_check in Ea. split; [done|].
      apply (enter_then _ _ (start db fs));
        unfold Message.myValidAuthorQuery, Message.server_error; by quiet. }
    right. assert (¬ authors_only q) as Hna
      by (rewrite <- authors_only_check; congruence).
    rewrite run_bind. cbn [enter start store faults queries visited app].
    rewrite run_bind. cbn [enter start store faults queries visited app].
    unfold Message.GetMessagePublicationYear. cbv zeta. cbn [query].
    destruct (truthy (prop q "publication_year")
              && negb (truthy (prop q "rating_avg"))
              && negb (truthy (prop q "authors"))) eqn:Ey.
    { left. split; [done|]. pose proof Ey as Hy%publication_year_only_check.
      split; [done|]. destruct Hy as (Ht & _ & _).
      match goal with
      | |- context [Message.myValidPublicationYearQuery vf ?rq ?nx ?w] =>
          destruct (publication_year_run rq nx w Ht) as [ok ->];
          destruct ok;
          [assert (keeps nx ∧ replies nx) as [Hk Hr]
             by (unfold Message.server_error; split; by quiet);
           split; [by rewrite Hk|apply Hr]
          |by split; [|eexists]]
      end. }
    right. assert (¬ publication_year_only q) as Hny
      by (rewrite <- publication_year_only_check; congruence).
    split; [done|]. split; [done|].
    rewrite run_bind. cbn [enter start store faults queries visited app].
    unfold Message.mwValidRatingAverageQuery. cbv zeta. cbn [query].
    destruct (isNumberProvided vf (prop q "rating_avg")); [|by split; [eexists|]].
    apply and_comm.
    apply (enter_then _ _
             {| store := db; faults := fs; queries := []; visited := rating_check |});
      unfold Message.RetrieveByRatingAvg, Message.server_error; by quiet. }
  assert (Hdiff : by_authors ≠ by_year ∧ by_authors ≠ by_rating
                  ∧ by_year ≠ by_rating ∧ by_authors ≠ rating_check
                  ∧ by_year ≠ rating_check) by (by repeat split).
  assert (Hpri : ∀ i, (("GetAllMessagesPri", i) ∉ by_authors)
                      ∧ (("GetAllMessagesPri", i) ∉ by_year)
                      ∧ (("GetAllMessagesPri", i) ∉ rating_check)
                      ∧ (("GetAllMessagesPri", i) ∉ by_rating)).
  { intros i. repeat split; intros Hin;
      repeat (apply elem_of_cons in Hin as [[=]|Hin]); by inversion Hin. }
  destruct Hdiff as (? & ? & ? & ? & ?).
  destruct Hcases as [(Ha & Hv & Hr)|[(Hna & Hy & Hv & Hr)|(Hna & Hny & Hr & Hg)]].
  - split; [done|]. split; [intros i; rewrite Hv; apply Hpri|].
    split; [done|]. split; [|done].
    rewrite Hv. split; [done|]. intros (? & ? & ?). destruct Ha as (? & ? & ?).
    congruence.
  - split; [done|]. split; [intros i; rewrite Hv; apply Hpri|].
    split; [rewrite Hv; split; [congruence|done]|]. split; [done|done].
  - split; [done|].
    destruct (isNumberProvided vf (prop q "rating_avg")).
    + split; [intros i; rewrite Hg; apply Hpri|].
      rewrite Hg. repeat split; try done; congruence.
    + rewrite Hg. cbn [snd visited entered].
      split; [intros i; apply Hpri|]. repeat split; try done; congruence.
Qed.

End books.

(** ** What no request does *)

Section moves.

Context (R : relation database) `{!PreOrder R}.

Lemma moves_ret {A} (a : A) : moves R (mret a).
Proof. intros w. reflexivity. Qed.

Lemma moves_throw {A} e : moves R (@throw A e).
Proof. intros w. reflexivity. Qed.

Lemma moves_send code b : moves R (send code b).
Proof. intros w. reflexivity. Qed.

Lemma moves_enter layer : moves R (enter layer).
Proof. intros w. reflexivity. Qed.

Lemma moves_length_of v : moves R (length_of v).
Proof. destruct v; intros w; reflexivity. Qed.

Lemma moves_row0 r : moves R (row0 r).
Proof. unfold row0. destruct (rows r); intros w; reflexivity. Qed.

Lemma moves_reduce f l : moves R (reduce f l).
Proof. destruct l; intros w; reflexivity. Qed.

Lemma moves_bind {A B} (m : M A) (k : A → M B) :
  moves R m → (∀ a, moves R (k a)) → moves R (m ≫= k).
Proof.
  intros Hm Hk w. rewrite run_bind. specialize (Hm w).
  destruct (m w) as [[a|e] w']; [|done]. etrans; [exact Hm|apply Hk].
Qed.

Lemma moves_try_catch {A} (m : M A) h :
  moves R m → (∀ e, moves R (h e)) → moves R (try_catch m h).
Proof.
  intros Hm Hh w. rewrite run_try_catch. specialize (Hm w).
  destruct (m w) as [[a|e] w']; [done|]. etrans; [exact Hm|apply Hh].
Qed.

Lemma moves_if {A} (b : bool) (m1 m2 : M A) :
  moves R m1 → moves R m2 → moves R (if b then m1 else m2).
Proof. by destruct b. Qed.

Lemma moves_pool_query st :
  (∀ db, R db (leaves st db)) → moves R (pool_query st).
Proof.
  intros Hst w. unfold pool_query. specialize (Hst (store w)). unfold leaves in Hst.
  destruct (head (faults w)) as [[e|]|]; [reflexivity|..];
    by destruct (execute st (store w)) as [[e db']|[r db']].
Qed.

Lemma moves_run_stack name i layers request next :
  Forall (λ h : middleware, ∀ next, moves R next → moves R (h request next)) layers →
  moves R next → moves R (run_stack name i layers request next).
Proof.
  intros Hl Hn. revert i. induction Hl as [|h layers Hh _ IH]; intros i; [done|].
  cbn [run_stack]. apply moves_bind; [apply moves_enter|]. intros _. apply Hh, IH.
Qed.

Lemma moves_dispatch routes m url request :
  Forall (λ r, ∀ ps, verb r = m →
            Forall (λ h : middleware, ∀ next, moves R next →
                      moves R (h {| query := query request; params := ps;
                                    body := body request |} next)) (stack r)) routes →
  moves R (dispatch routes m url request).
Proof.
  induction 1 as [|r routes Hr _ IH]; [apply moves_ret|].
  cbn [dispatch]. case_bool_decide; [|done].
  destruct (match_path (path r) url) as [ps|] eqn:E; [|done].
  by apply moves_run_stack; [apply Hr|].
Qed.

End moves.

Ltac moves :=
  repeat first
    [ assumption
    | apply moves_send | apply moves_ret | apply moves_throw
    | apply moves_length_of | apply moves_row0 | apply moves_reduce
    | apply moves_if | apply moves_try_catch | apply moves_bind
    | apply moves_pool_query
    | intros ? ].

Ltac unfold_routes :=
  unfold Message.mwValidNameMessageBody, Message.PostMessage_priority,
    Message.PostMessage, Message.GetMessageAuthor, Message.myValidAuthorQuery,
    Message.GetMessagePublicationYear, Message.myValidPublicationYearQuery,
    Message.myValidIsbn13Param, Message.GetMessageIsbn,
    Message.myValidTitleParam, Message.RetrieveBookTitle,
    Message.mwValidRatingAverageQuery, Message.RetrieveByRatingAvg,
    Message.RetrieveAllBooks, Message.GetAllMessages, Message.mwValidPriorityQuery,
    Message.GetAllMessagesPri, Message.GetMessageName, Message.PutMessage,
    Message.DeleteMessagesPri, Message.DeleteMessage, Message.server_error,
    Library.offset, Library.cursor, Library.post_name_message, Library.post_priority,
    Library.post, Library.delete_name;
  cbv zeta.

(** Every layer of both routers moves the tables as its statements do. *)
Lemma routers_move (R : relation database) vf m url request :
  PreOrder R →
  (∀ st db, (m = GET → reads st = true) → R db (leaves st db)) →
  moves R (dispatch (Message.messageRouter vf) m url request)
  ∧ moves R (dispatch (Library.libraryRouter vf) m url request).
Proof.
  intros HR Hst.
  split; apply (moves_dispatch R);
    [unfold Message.messageRouter|unfold Library.libraryRouter];
    repeat apply Forall_cons_2; try apply Forall_nil_2;
    cbn [verb stack]; intros ps Hverb;
    repeat apply Forall_cons_2; try apply Forall_nil_2; intros next Hnext;
    unfold_routes; moves; apply Hst; by intros ->.
Qed.

Lemma execute_reads st db r db' :
  reads st = true → execute st db = inr (r, db') → db' = db.
Proof.
  intros Hst H. destruct st; try discriminate Hst; clear Hst;
    unfold execute in H; repeat case_match; by simplify_eq.
Qed.

Lemma leaves_reads st db : reads st = true → leaves st db = db.
Proof.
  intros Hst. unfold leaves. destruct (execute st db) as [[e db']|[r db']] eqn:H;
    [|by apply (execute_reads st db r)].
  destruct st; try discriminate Hst; clear Hst;
    unfold execute in H; repeat case_match; by simplify_eq.
Qed.

Lemma leaves_BOOKS st db : BOOKS (leaves st db) = BOOKS db.
Proof.
  unfold leaves. destruct (execute st db) as [[e db']|[r db']] eqn:H;
    destruct st; unfold execute in H; repeat case_match; by simplify_eq.
Qed.

Lemma NoDup_fmap_filter {A B} (f : A → B) (P : A → bool) (l : list A) :
  NoDup (f <$> l) → NoDup (f <$> List.filter P l).
Proof.
  induction l as [|a l IH]; [done|]. cbn [fmap list_fmap List.filter].
  rewrite NoDup_cons. intros [Ha Hl]. destruct (P a); [|by apply IH].
  cbn [fmap list_fmap]. apply NoDup_cons. split; [|by apply IH].
  intros (b & Hb & Hin)%list_elem_of_fmap. apply Ha, list_elem_of_fmap.
  exists b. split; [done|]. apply list_elem_of_In in Hin. apply filter_In in Hin as [Hin _].
  by apply list_elem_of_In.
Qed.

Lemma Forall_filter_bool {A} (Q : A → Prop) (P : A → bool) (l : list A) :
  Forall Q l → Forall Q (List.filter P l).
Proof.
  induction 1 as [|a l Ha _ IH]; [done|]. cbn [List.filter].
  destruct (P a); [by constructor|done].
Qed.

Lemma consistent_filter P db :
  consistent db → consistent (Sql.set_Demo (List.filter P (Demo db)) db).
Proof.
  intros (Hn & Hk & Hs). unfold consistent. cbn [Sql.set_Demo Demo DemoID_seq].
  split; [by apply NoDup_fmap_filter|]. split; [by apply NoDup_fmap_filter|].
  by apply Forall_filter_bool.
Qed.

Lemma execute_consistent st db r db' :
  execute st db = inr (r, db') → consistent db → consistent db'.
Proof.
  intros H Hdb.
  destruct st;
    unfold execute in H; repeat case_match; simplify_eq;
    try done; try (by apply consistent_filter).
  - destruct Hdb as (Hn & Hk & Hs). unfold consistent. cbn [Demo DemoID_seq].
    rewrite !fmap_app. cbn [fmap list_fmap name demoid].
    match goal with H : existsb _ _ = false |- _ => rename H into Hfresh end.
    split; [|split].
    + apply NoDup_app. split; [done|]. split; [|apply NoDup_singleton].
      intros x (d & -> & Hd)%list_elem_of_fmap Hx%list_elem_of_singleton.
      apply not_true_iff_false in Hfresh. apply Hfresh, existsb_exists.
      exists d. split; [by apply list_elem_of_In|by apply bool_decide_eq_true].
    + apply NoDup_app. split; [done|]. split; [|apply NoDup_singleton].
      intros x (d & -> & Hd)%list_elem_of_fmap Hx%list_elem_of_singleton.
      rewrite Forall_forall in Hs. specialize (Hs d Hd). lia.
    + apply Forall_app. split.
      * eapply Forall_impl; [exact Hs|]. intros d Hd. cbn beta in *. lia.
      * apply Forall_singleton. cbn [demoid]. lia.
  - destruct Hdb as (Hn & Hk & Hs). unfold consistent. cbn [Sql.set_Demo Demo DemoID_seq].
    rewrite <- !list_fmap_compose.
    rewrite (list_fmap_ext (name ∘ _) name (Demo db))
      by (intros i d _; cbn; by case_match).
    rewrite (list_fmap_ext (demoid ∘ _) demoid (Demo db))
      by (intros i d _; cbn; by case_match).
    split; [done|]. split; [done|].
    apply Forall_fmap. eapply Forall_impl; [exact Hs|].
    intros d Hd. cbn. by case_match.
Qed.

Lemma leaves_consistent st db : consistent db → consistent (leaves st db).
Proof.
  intros Hdb. unfold leaves.
  destruct (execute st db) as [[e db']|[r db']] eqn:H;
    [|by apply (execute_consistent st db r)].
  destruct st; unfold execute in H; repeat case_match; simplify_eq; try done.
  destruct Hdb as (Hn & Hk & Hs). split; [done|]. split; [done|].
  cbn [Sql.next_key Demo DemoID_seq]. eapply Forall_impl; [exact Hs|].
  intros d Hd. cbn beta in *. lia.
Qed.

(** X1. Whatever the request, and whether it is answered or not, the
    tables stay consistent under both routers: names unique, keys unique,
    no key beyond the last one handed out. *)
Theorem requests_keep_consistency vf m url request w :
  consistent (store w) →
  consistent (store (dispatch (Message.messageRouter vf) m url request w).2)
  ∧ consistent (store (dispatch (Library.libraryRouter vf) m url request w).2).
Proof.
  intros Hw.
  destruct (routers_move (λ db db', consistent db → consistent db') vf m url request)
    as [H1 H2].
  - split; [by intros db|]. intros a b c Hab Hbc Ha. by apply Hbc, Hab.
  - intros st db _. apply leaves_consistent.
  - split; [by apply H1|by apply H2].
Qed.

(** X2. A GET request changes no table, under either router, whatever
    its path and parameters, and also when the database rejects it. *)
Theorem get_changes_nothing vf url request w :
  store (dispatch (Message.messageRouter vf) GET url request w).2 = store w
  ∧ store (dispatch (Library.libraryRouter vf) GET url request w).2 = store w.
Proof.
  destruct (routers_move (λ db db', db' = db) vf GET url request) as [H1 H2].
  - split; [by intros db|]. intros a b c -> ->. done.
  - intros st db Hst. apply leaves_reads. by apply Hst.
  - split; [apply H1|apply H2].
Qed.

(** X3. No request of either router changes the table of books. *)
Theorem books_are_read_only vf m url request w :
  BOOKS (store (dispatch (Message.messageRouter vf) m url request w).2) = BOOKS (store w)
  ∧ BOOKS (store (dispatch (Library.libraryRouter vf) m url request w).2) = BOOKS (store w).
Proof.
  destruct (routers_move (λ db db', BOOKS db' = BOOKS db) vf m url request) as [H1 H2].
  - split; [by intros db|]. intros a b c Hab Hbc. by rewrite Hbc.
  - intros st db _. apply leaves_BOOKS.
  - split; [apply H1|apply H2].
Qed.

(** ** Rejections, route by route *)

Lemma still_ret {A} (a : A) : still (mret a).
Proof. by intros w. Qed.

Lemma still_length_of v : still (length_of v).
Proof. by destruct v; intros w. Qed.

Lemma still_bind {A B} (m : M A) (k : A → M B) :
  still m → (∀ a, still (k a)) → still (m ≫= k).
Proof.
  intros Hm Hk w. rewrite run_bind. specialize (Hm w).
  destruct (m w) as [[a|e] w']; cbn in Hm; subst w'; [apply Hk|done].
Qed.

Lemma still_if {A} (b : bool) (m1 m2 : M A) :
  still m1 → still m2 → still (if b then m1 else m2).
Proof. by destruct b. Qed.

Section translated.

Variables (e : pg_error) (final : outcome reply → Prop).

Lemma translated_send code b : translated e final (send code b).
Proof. intros w _. by left. Qed.

Lemma translated_ret r : translated e final (mret r).
Proof. intros w _. by left. Qed.

Lemma translated_if (b : bool) m1 m2 :
  translated e final m1 → translated e final m2 →
  translated e final (if b then m1 else m2).
Proof. by destruct b. Qed.

Lemma translated_bind {A} (m : M A) (k : A → M reply) :
  still m → (∀ a, translated e final (k a)) → translated e final (m ≫= k).
Proof.
  intros Hm Hk w Hw. rewrite run_bind. specialize (Hm w).
  destruct (m w) as [[a|x] w']; cbn in Hm; subst w'; [by apply Hk|by left].
Qed.

Lemma translated_enter layer m :
  translated e final m → translated e final (enter layer;; m).
Proof. intros Hm w Hw. rewrite run_bind. by apply (Hm (enter layer w).2). Qed.

Lemma translated_query st (k : result → M reply) h :
  (∀ w, (h (DatabaseError e) w).2 = w ∧ final (h (DatabaseError e) w).1) →
  translated e final (try_catch (pool_query st ≫= k) h).
Proof.
  intros Hh w Hw. right. rewrite run_try_catch, run_bind, (pool_query_fault _ _ _ Hw).
  match goal with |- context [h _ ?w'] => destruct (Hh w') as [-> Hf] end.
  split; [done|]. split; [by exists st|done].
Qed.

Lemma translated_run_stack name i layers request next :
  Forall (λ h : middleware, ∀ next, translated e final next →
            translated e final (h request next)) layers →
  translated e final next →
  translated e final (run_stack name i layers request next).
Proof.
  intros Hl Hn. revert i. induction Hl as [|h layers Hh _ IH]; intros i; [done|].
  cbn [run_stack]. apply translated_enter, Hh, IH.
Qed.

Lemma translated_dispatch routes m url request :
  Forall (λ r, ∀ ps, verb r = m →
            Forall (λ h : middleware, ∀ next, translated e final next →
                      translated e final
                        (h {| query := query request; params := ps;
                              body := body request |} next)) (stack r)) routes →
  translated e final (dispatch routes m url request).
Proof.
  induction 1 as [|r routes Hr _ IH]; [apply translated_ret|].
  cbn [dispatch]. case_bool_decide; [|done].
  destruct (match_path (path r) url) as [ps|] eqn:E; [|done].
  by apply translated_run_stack; [apply Hr|].
Qed.

End translated.

Ltac translated :=
  repeat first
    [ assumption
    | apply translated_send | apply translated_ret | apply translated_if
    | apply still_ret | apply still_length_of | apply still_if | apply still_bind
    | apply translated_bind
    | apply translated_query
    | intros ? ].

(** X4. When the database rejects the statement of a request to the
    message router, the request has sent that one statement, the tables
    are as before and the response is 500 with the fixed message that
    hides the failure; only [POST /] answers 400 Name exists instead,
    when the detail of the rejection ends in already exists.  (Otherwise
    the request sent no statement at all.) *)
Theorem rejection_is_translated vf m url request e w :
  failing e w →
  let after := dispatch (Message.messageRouter vf) m url request w in
  (queries after.2 = queries w ∧ faults after.2 = faults w)
  ∨ (store after.2 = store w
     ∧ (∃ st, queries after.2 = queries w ++ [st])
     ∧ (after.1 = server_failure
        ∨ (m = POST ∧ duplicate "already exists." e
           ∧ after.1 = bad_request "Name exists"))).
Proof.
  intros Hw after. subst after. revert w Hw.
  apply (translated_dispatch e
           (λ r, r = server_failure
                 ∨ (m = POST ∧ duplicate "already exists." e
                    ∧ r = bad_request "Name exists"))).
  unfold Message.messageRouter.
  repeat apply Forall_cons_2; try apply Forall_nil_2;
    cbn [verb stack]; intros ps Hverb;
    repeat apply Forall_cons_2; try apply Forall_nil_2; intros next Hnext;
    unfold_routes; translated; try (split; [done|by left]).
  destruct e as [[s|]]; cbn [detail_of ToString]; [|split; [done|by left]].
  destruct (endsWith s "already exists.") eqn:Hs; (split; [done|]); [right|by left].
  split; [done|]. split; [by exists s|done].
Qed.

(** X5. The two routes of the library router that write treat a
    rejection likewise: one statement sent, the tables as before, and
    500 with the fixed message; [POST /] answers 400 Name exists when
    the detail of the rejection ends in exists. *)
Theorem library_rejection_is_translated vf m url request e w :
  m = POST ∨ m = DELETE →
  failing e w →
  let after := dispatch (Library.libraryRouter vf) m url request w in
  (queries after.2 = queries w ∧ faults after.2 = faults w)
  ∨ (store after.2 = store w
     ∧ (∃ st, queries after.2 = queries w ++ [st])
     ∧ (after.1 = server_failure
        ∨ (m = POST ∧ duplicate "exists." e ∧ after.1 = bad_request "Name exists"))).
Proof.
  intros Hm Hw after. subst after. revert w Hw.
  apply (translated_dispatch e
           (λ r, r = server_failure
                 ∨ (m = POST ∧ duplicate "exists." e ∧ r = bad_request "Name exists"))).
  unfold Library.libraryRouter.
  repeat apply Forall_cons_2; try apply Forall_nil_2;
    cbn [verb stack]; intros ps Hverb;
    try (by destruct Hm; subst m);
    repeat apply Forall_cons_2; try apply Forall_nil_2; intros next Hnext;
    unfold_routes; translated; try (split; [done|by left]).
  destruct e as [[s|]]; cbn [detail_of ToString truthy]; [|split; [done|by left]].
  destruct s as [|a s]; [split; [done|by left]|].
  cbn [truthy andb negb bool_decide].
  destruct (endsWith (String a s) "exists.") eqn:Hs; cbn; rewrite ?Hs;
    (split; [done|]); [right|by left].
  split; [done|]. split; [by eexists|done].
Qed.

(** ** The routes that read *)

Section reading.

Variable vf : validation.

Lemma format_book b : Message.format (Sql.book_columns b) = book_line b.
Proof. reflexivity. Qed.

Lemma format_books (bs : list book) :
  Text ∘ Message.format <$> (Sql.book_columns <$> bs) = Text <$> (book_line <$> bs).
Proof. rewrite <- !list_fmap_compose. by apply list_fmap_ext. Qed.

Lemma format_messages (ds : list demo) :
  Text ∘ Message.format <$> (Sql.demo_columns <$> ds) = (λ _, Text no_book) <$> ds.
Proof. rewrite <- list_fmap_compose. by apply list_fmap_ext. Qed.

Lemma positive_length {A} (l : list A) : (0 <? Z.of_nat (length l)) = negb (bool_decide (l = [])).
Proof. by destruct l. Qed.

Lemma one_row {A} (l : list A) :
  (Z.of_nat (length l) =? 1) = bool_decide (length l = 1%nat).
Proof. case_bool_decide as E; [by rewrite E|]. apply Z.eqb_neq. lia. Qed.

Lemma dispatch_all request w :
  dispatch (Message.messageRouter vf) GET ["all"] request w =
  (enter ("GetAllMessages", 0%nat);;
   Message.GetAllMessages
     {| query := query request; params := ∅; body := body request |}
     (mret Unhandled)) w.
Proof. reflexivity. Qed.

Lemma dispatch_retrieve request w :
  dispatch (Message.messageRouter vf) GET ["retrieve"] request w =
  (enter ("RetrieveAllBooks", 0%nat);;
   Message.RetrieveAllBooks
     {| query := query request; params := ∅; body := body request |}
     (mret Unhandled)) w.
Proof. reflexivity. Qed.


Lemma dispatch_name n request w :
  n ≠ "" →
  dispatch (Message.messageRouter vf) GET ["name"; n] request w =
  (enter ("GetMessageName", 0%nat);;
   Message.GetMessageName
     {| query := query request; params := {[ "name" := str n ]};
        body := body request |}
     (mret Unhandled)) w.
Proof.
  intros Hn. unfold Message.messageRouter.
  cbn [dispatch verb path stack label match_path run_stack fmap option_fmap
         option_map].
  rewrite (bool_decide_true (GET = GET)) by done.
  rewrite (bool_decide_false (POST = GET)) by done.
  rewrite (bool_decide_false (PUT = GET)) by done.
  rewrite (bool_decide_false (DELETE = GET)) by done.
  rewrite (bool_decide_false ("isbn13" = "name")) by done.
  rewrite (bool_decide_false ("title" = "name")) by done.
  rewrite (bool_decide_false ("retrieve" = "name")) by done.
  rewrite (bool_decide_false ("all" = "name")) by done.
  rewrite (bool_decide_true ("name" = "name")) by done.
  rewrite (bool_decide_false (n = "")) by done.
  reflexivity.
Qed.

(** X6. [GET /all] answers 200 with one line per stored message, also
    when the table is empty; the line is made by the format of a book,
    of which a message has no column, so every line is the same text of
    undefined fields. *)
Theorem all_messages db request :
  dispatch (Message.messageRouter vf) GET ["all"] request (start db []) =
  (Ok (Sent {| status := 200; sent := Entries ((λ _, Text no_book) <$> Demo db) |}),
   {| store := db; faults := []; queries := [SelectDemo];
      visited := [("GetAllMessages", 0%nat)] |}).
Proof.
  rewrite dispatch_all, run_bind. cbn [enter start store faults queries visited app].
  unfold Message.GetAllMessages. rewrite run_try_catch, run_bind.
  rewrite (pool_query_result _ _ _ _ (Sql.returning (Sql.demo_columns <$> Demo db)) db)
    by reflexivity.
  cbn [rows Sql.returning]. by rewrite format_messages.
Qed.

(** X7. [GET /retrieve] answers 404 No books found when the table of
    books is empty, and otherwise 200 with one line per book, made of
    its title, authors, isbn13, year and rating. *)
Theorem all_books db request :
  (dispatch (Message.messageRouter vf) GET ["retrieve"] request (start db [])).1 =
  match BOOKS db with
  | [] => not_found "No books found"
  | bs => lines (book_line <$> bs)
  end.
Proof.
  rewrite dispatch_retrieve, run_bind. cbn [enter start store faults queries visited app].
  unfold Message.RetrieveAllBooks. rewrite run_try_catch, run_bind.
  rewrite (pool_query_result _ _ _ _ (Sql.select_books (λ _, true) db) db)
    by reflexivity.
  unfold Sql.select_books. cbn [rowCount rows Sql.returning].
  rewrite length_fmap, positive_length.
  assert (List.filter (λ _ : book, true) (BOOKS db) = BOOKS db) as ->.
  { induction (BOOKS db) as [|b bs IH]; [done|]. cbn. by rewrite IH. }
  destruct (BOOKS db) as [|b bs]; [done|].
  cbn [bool_decide negb]. rewrite bool_decide_false by done. cbn [negb].
  unfold lines. by rewrite format_books.
Qed.


Lemma GetMessageName_run db n request :
  n ≠ "" →
  dispatch (Message.messageRouter vf) GET ["name"; n] request (start db []) =
  (match sent_by n db with
   | [d] => found (Sql.demo_columns d)
   | _ => not_found "Name not found"
   end,
   {| store := db; faults := []; queries := [SelectDemoByName (str n)];
      visited := [("GetMessageName", 0%nat)] |}).
Proof.
  intros Hn. rewrite dispatch_name by done.
  rewrite run_bind. cbn [enter start store faults queries visited app].
  unfold Message.GetMessageName. cbn [params].
  change (prop {[ "name" := str n ]} "name") with (str n).
  rewrite run_try_catch, run_bind.
  rewrite (pool_query_result _ _ _ _
             (Sql.returning (Sql.demo_columns <$> sent_by n db)) db)
    by reflexivity.
  cbn [rowCount rows Sql.returning]. rewrite length_fmap, one_row.
  by destruct (sent_by n db) as [|d [|d' ds]].
Qed.


End reading.

Section filters.

Variable vf : validation.

(** X10. [GET /?publication_year=y], with no authors and no rating_avg:
    a value that [isNumberProvided] rejects or that has not four
    characters is refused with 400; a value of four characters that is
    no integer makes the statement fail, and the answer is 500; a year
    answers 404 when no book is of that year and otherwise 200 with the
    lines of the books of that year. *)
Theorem books_by_year db q y :
  publication_year_only q → prop q "publication_year" = str y →
  let run := dispatch (Message.messageRouter vf) GET [] (with_query q) (start db []) in
  (isNumberProvided vf (str y) = false ∨ String.length y ≠ 4%nat →
     run.1 = bad_request
               "Invalid or missing publication_year - please refer to documentation"
     ∧ queries run.2 = [])
  ∧ (isNumberProvided vf (str y) = true → String.length y = 4%nat →
     (Sql.int (str y) = None → run.1 = server_failure)
     ∧ (∀ z, Sql.int (str y) = Some z →
          run.1 = match published z db with
                  | [] => not_found
                            "No book associated with this publication year was found"
                  | bs => lines (book_line <$> bs)
                  end)).
Proof.
  intros Hq Hy run. subst run. rewrite dispatch_root. cbv zeta.
  cbn [query with_query body].
  unfold Message.GetMessageAuthor. cbv zeta. cbn [query].
  pose proof Hq as Hq'%publication_year_only_check.
  destruct Hq as (Ht & Hr & Ha). rewrite Ha. cbn [andb].
  rewrite run_bind. cbn [enter start store faults queries visited app].
  rewrite run_bind. cbn [enter start store faults queries visited app].
  unfold Message.GetMessagePublicationYear. cbv zeta. cbn [query].
  rewrite Hq'. unfold Message.myValidPublicationYearQuery. cbv zeta. cbn [query].
  rewrite Hy, !run_bind.
  split.
  - intros [-> | Hlen]; [done|].
    destruct (isNumberProvided vf (str y)); [|done].
    rewrite run_bind. cbn [length_of mret M_ret loose_eq ToNumber].
    unfold loose_eq. cbn [ToNumber].
    by rewrite (proj2 (Z.eqb_neq _ _)) by lia.
  - intros -> Hlen. rewrite run_bind. cbn [length_of mret M_ret].
    rewrite Hlen. change (loose_eq (num (Z.of_nat 4)) (num 4)) with true. cbv iota.
    rewrite run_try_catch, run_bind. split.
    + intros Hno. unfold pool_query. cbn [head faults store execute].
      by rewrite Hno.
    + intros z Hz.
      rewrite (pool_query_result _ _ _ _
                 (Sql.select_books (λ b, publication_year b =? z) db) db)
        by (cbn [execute]; by rewrite Hz).
      unfold Sql.select_books. cbn [rowCount rows Sql.returning].
      rewrite length_fmap, positive_length. fold (published z db).
      destruct (published z db) as [|b bs]; [done|].
      rewrite bool_decide_false by done. cbn [negb].
      unfold lines. by rewrite format_books.
Qed.

End filters.

(** ** One request after another *)

Section sequences.

Variable vf : validation.



Lemma sent_by_deleted n n' db :
  sent_by n' (Sql.set_Demo
                (List.filter (λ x, negb (bool_decide (name x = n))) (Demo db)) db) =
  if bool_decide (n' = n) then [] else sent_by n' db.
Proof.
  unfold sent_by. cbn [Sql.set_Demo Demo].
  induction (Demo db) as [|d ds IH]; [by case_bool_decide|].
  cbn [List.filter]. destruct (decide (name d = n)) as [E|E].
  - rewrite (bool_decide_true (name d = n)) by done. cbn [negb]. rewrite IH.
    case_bool_decide as E'; [done|]. rewrite bool_decide_false; [done|congruence].
  - rewrite (bool_decide_false (name d = n)) by done. cbn [negb List.filter].
    rewrite IH. case_bool_decide as E'; [|done].
    rewrite bool_decide_false; [done|congruence].
Qed.



(** X13. [DELETE /:name] removes the message of that name and nothing
    else, under both routers.  After it the name is not found: by
    [GET /name/:name], and by a second [DELETE /:name], which answers
    404 and changes nothing; every other name is looked up as before. *)
Theorem deleted_then_gone db d :
  name d ≠ "" → NoDup (name <$> Demo db) → d ∈ Demo db →
  let db' :=
    store (dispatch (Message.messageRouter vf) DELETE [name d] no_fields
             (start db [])).2 in
  store (dispatch (Library.libraryRouter vf) DELETE [name d] no_fields (start db [])).2
  = db'
  ∧ Demo db ≡ₚ d :: Demo db'
  ∧ (dispatch (Message.messageRouter vf) GET ["name"; name d] no_fields
       (start db' [])).1 = not_found "Name not found"
  ∧ (∀ n', n' ≠ "" → n' ≠ name d →
       (dispatch (Message.messageRouter vf) GET ["name"; n'] no_fields (start db' [])).1 =
       (dispatch (Message.messageRouter vf) GET ["name"; n'] no_fields (start db [])).1)
  ∧ (let again :=
       dispatch (Message.messageRouter vf) DELETE [name d] no_fields (start db' []) in
     again.1 = not_found "Name not found" ∧ store again.2 = db')
  ∧ (let again :=
       dispatch (Library.libraryRouter vf) DELETE [name d] no_fields (start db' []) in
     again.1 = not_found "Name not found" ∧ store again.2 = db').
Proof.
  intros Hn Hnd Hd db'.
  destruct (DeleteMessage_run vf db no_fields d Hn Hnd Hd) as [H1 H2].
  cbv zeta in H1, H2. subst db'. rewrite H1, H2. cbn [snd store].
  set (db' := Sql.set_Demo _ db).
  assert (Hgone : ∀ x, x ∈ Demo db' → name x ≠ name d).
  { intros x Hx. subst db'. cbn [Sql.set_Demo Demo] in Hx.
    apply list_elem_of_In, filter_In in Hx as [_ Hx%negb_true_iff].
    by apply bool_decide_eq_false in Hx. }
  split; [done|]. split; [|split; [|split; [|split]]].
  - subst db'. cbn [Sql.set_Demo Demo]. clear H1 H2 Hgone.
    induction (Demo db) as [|x xs IH]; [by inversion Hd|].
    cbn [fmap list_fmap] in Hnd. apply NoDup_cons in Hnd as [Hx Hxs].
    cbn [List.filter]. apply elem_of_cons in Hd as [<-|Hd].
    + rewrite bool_decide_true by done. cbn [negb].
      rewrite filter_not_named_none; [done|].
      intros y Hy E. apply Hx. rewrite <- E. by apply list_elem_of_fmap_2.
    + rewrite bool_decide_false.
      2:{ intros E. apply Hx. rewrite E. by apply list_elem_of_fmap_2. }
      cbn [negb]. rewrite (IH Hxs Hd) at 1. apply Permutation_swap.
  - rewrite GetMessageName_run by done. cbn [fst]. subst db'.
    by rewrite sent_by_deleted, bool_decide_true.
  - intros n' Hn' Hne. rewrite !GetMessageName_run by done. cbn [fst]. subst db'.
    by rewrite sent_by_deleted, bool_decide_false.
  - destruct (DeleteMessage_not_found vf db' no_fields (name d) Hn Hgone) as [-> _].
    by split.
  - destruct (DeleteMessage_not_found vf db' no_fields (name d) Hn Hgone) as [_ ->].
    by split.
Qed.

End sequences.

Section removal.

Variable vf : validation.

Lemma filter_split {A} (P : A → bool) (l : list A) :
  (length (List.filter P l) + length (List.filter (λ x, negb (P x)) l))%nat = length l.
Proof.
  induction l as [|a l IH]; [done|]. cbn [List.filter].
  destruct (P a); cbn [negb length]; lia.
Qed.

(** X14. [DELETE /?priority=p] removes the messages of that priority and
    no other: it answers 200 with as many lines as messages are gone, or
    404 with the tables as they were when no message has the priority;
    asked again, it answers 404. *)
Theorem deleted_by_priority db q p z :
  prop q "priority" = p → numeric_priority vf p → Sql.int p = Some z →
  let run := dispatch (Message.messageRouter vf) DELETE [] (with_query q) (start db []) in
  let db' := store run.2 in
  (∀ d, d ∈ Demo db' ↔ d ∈ Demo db ∧ priority d ≠ z)
  ∧ ((∃ d, d ∈ Demo db ∧ priority d = z) →
     ∃ es, run.1 = Ok (Sent {| status := 200; sent := Entries es |})
           ∧ (length es + length (Demo db') = length (Demo db))%nat)
  ∧ ((∀ d, d ∈ Demo db → priority d ≠ z) →
     run.1 = not_found ("No Priority " +:+ ToString p +:+ " messages found")
     ∧ db' = db)
  ∧ (dispatch (Message.messageRouter vf) DELETE [] (with_query q) (start db' [])).1 =
    not_found ("No Priority " +:+ ToString p +:+ " messages found").
Proof.
  intros Hp Hnum Hz run db'. subst db' run.
  rewrite !(DeleteMessagesPri_run vf _ q p z Hp Hnum Hz). cbn [fst snd store].
  set (db' := Sql.set_Demo _ db).
  assert (Hin : ∀ d, d ∈ Demo db' ↔ d ∈ Demo db ∧ priority d ≠ z).
  { intros d. subst db'. cbn [Sql.set_Demo Demo].
    rewrite !list_elem_of_In, filter_In, negb_true_iff, Z.eqb_neq. done. }
  split; [done|]. split; [|split].
  - intros (d & Hd & Hpd).
    destruct (List.filter (λ d, priority d =? z) (Demo db)) as [|x xs] eqn:E.
    { assert (d ∈ List.filter (λ d, priority d =? z) (Demo db)) as Hx.
      { apply list_elem_of_In, filter_In. split; [by apply list_elem_of_In|].
        by apply Z.eqb_eq. }
      rewrite E in Hx. by inversion Hx. }
    eexists. split; [done|]. rewrite length_fmap, <- E. subst db'.
    cbn [Sql.set_Demo Demo]. apply filter_split.
  - intros Hnone.
    assert (List.filter (λ d, priority d =? z) (Demo db) = []) as ->.
    { apply elem_of_nil_inv. intros d [Hd ?%Z.eqb_eq]%list_elem_of_In%filter_In.
      apply (Hnone d); [by apply list_elem_of_In|done]. }
    split; [done|]. subst db'.
    assert (List.filter (λ d, negb (priority d =? z)) (Demo db) = Demo db) as ->;
      [|apply set_Demo_same].
    clear -Hnone. induction (Demo db) as [|d ds IH]; [done|]. cbn [List.filter].
    rewrite (proj2 (Z.eqb_neq _ _)) by (apply Hnone; left). cbn [negb].
    rewrite IH; [done|]. intros x Hx. apply Hnone. by right.
  - assert (List.filter (λ d, priority d =? z) (Demo db') = []) as ->; [|done].
    apply elem_of_nil_inv. intros d [Hd ?%Z.eqb_eq]%list_elem_of_In%filter_In.
    apply list_elem_of_In, Hin in Hd as [_ ?]. done.
Qed.

End removal.

(** ** Page after page *)

Section pages.

Variable vf : validation.





Lemma StronglySorted_filter {A} (R : relation A) (P : A → bool) (l : list A) :
  StronglySorted R l → StronglySorted R (List.filter P l).
Proof.
  induction 1 as [|x l _ IH Hx]; [constructor|]. cbn [List.filter].
  destruct (P x); [|done]. constructor; [done|].
  apply Forall_forall. intros y [Hy _]%list_elem_of_In%filter_In.
  rewrite Forall_forall in Hx. by apply Hx, list_elem_of_In.
Qed.



End pages.

(** ** How much a request asks of the database *)

Lemma asks_ret {A} n (a : A) : asks n (mret a).
Proof. intros w. exists []. split; [by rewrite app_nil_r|cbn; lia]. Qed.

Lemma asks_throw {A} n e : asks n (@throw A e).
Proof. intros w. exists []. split; [by rewrite app_nil_r|cbn; lia]. Qed.

Lemma asks_send n code b : asks n (send code b).
Proof. apply asks_ret. Qed.

Lemma asks_length_of n v : asks n (length_of v).
Proof. destruct v; apply asks_ret || apply asks_throw. Qed.

Lemma asks_row0 n r : asks n (row0 r).
Proof. unfold row0. destruct (rows r); apply asks_ret || apply asks_throw. Qed.

Lemma asks_reduce n f l : asks n (reduce f l).
Proof. destruct l; apply asks_ret || apply asks_throw. Qed.

Lemma asks_if {A} n (b : bool) (m1 m2 : M A) :
  asks n m1 → asks n m2 → asks n (if b then m1 else m2).
Proof. by destruct b. Qed.

Lemma asks_bind {A B} n k (m : M A) (f : A → M B) :
  asks n m → (∀ a, asks k (f a)) → asks (n + k) (m ≫= f).
Proof.
  intros Hm Hf w. rewrite run_bind. destruct (Hm w) as (s1 & E1 & L1).
  destruct (m w) as [[a|e] w']; cbn [snd] in *.
  - destruct (Hf a w') as (s2 & E2 & L2). exists (s1 ++ s2).
    rewrite E2, E1, app_assoc, length_app. split; [done|lia].
  - exists s1. split; [done|lia].
Qed.

Lemma asks_try_catch {A} n k (m : M A) h :
  asks n m → (∀ e, asks k (h e)) → asks (n + k) (try_catch m h).
Proof.
  intros Hm Hh w. rewrite run_try_catch. destruct (Hm w) as (s1 & E1 & L1).
  destruct (m w) as [[a|e] w']; cbn [snd] in *.
  - exists s1. split; [done|lia].
  - destruct (Hh e w') as (s2 & E2 & L2). exists (s1 ++ s2).
    rewrite E2, E1, app_assoc, length_app. split; [done|lia].
Qed.

Lemma asks_pool_query st : asks 1 (pool_query st).
Proof.
  intros w. exists [st]. split; [|done]. unfold pool_query.
  destruct (head (faults w)) as [[e|]|]; [done|..];
    by destruct (execute st (store w)) as [[e db']|[r db']].
Qed.

(** [pure.then(k)] *)
Lemma asks_then {A B} n (m : M A) (f : A → M B) :
  asks 0 m → (∀ a, asks n (f a)) → asks n (m ≫= f).
Proof. apply (asks_bind 0 n). Qed.

(** [await pool.query(st)], and the rest *)
Lemma asks_await {B} n st (f : result → M B) :
  (∀ r, asks n (f r)) → asks (S n) (pool_query st ≫= f).
Proof. apply (asks_bind 1 n), asks_pool_query. Qed.

(** [pool.query(st).then(k).catch(h)] *)
Lemma asks_query st (k : result → M reply) h :
  (∀ r, asks 0 (k r)) → (∀ e, asks 0 (h e)) →
  asks 1 (try_catch (pool_query st ≫= k) h).
Proof.
  intros Hk Hh. apply (asks_try_catch 1 0); [|done].
  by apply (asks_await 0).
Qed.

Lemma asks_run_stack n name i layers request next :
  Forall (λ h : middleware, ∀ next, asks n next → asks n (h request next)) layers →
  asks n next → asks n (run_stack name i layers request next).
Proof.
  intros Hl Hn. revert i. induction Hl as [|h layers Hh _ IH]; intros i; [done|].
  cbn [run_stack]. apply asks_then; [|intros _; apply Hh, IH].
  intros w. exists []. split; [by rewrite app_nil_r|done].
Qed.

Lemma asks_dispatch n routes m url request :
  Forall (λ r, ∀ ps,
            Forall (λ h : middleware, ∀ next, asks n next →
                      asks n (h {| query := query request; params := ps;
                                   body := body request |} next)) (stack r)) routes →
  asks n (dispatch routes m url request).
Proof.
  induction 1 as [|r routes Hr _ IH]; [apply asks_ret|].
  cbn [dispatch]. case_bool_decide; [|done].
  destruct (match_path (path r) url) as [ps|] eqn:E; [|done].
  by apply asks_run_stack; [apply Hr|].
Qed.

Ltac asks :=
  repeat first
    [ assumption
    | apply asks_send | apply asks_ret | apply asks_throw
    | apply asks_length_of | apply asks_row0 | apply asks_reduce
    | apply asks_if | apply asks_query | apply asks_await | apply asks_then
    | intros ? ].

(** X17. A request makes the message router send at most one statement
    to the database, and the library router at most two, after the
    statements sent before it: no route asks again, whatever the answer
    of the database. *)
Theorem statements_per_request vf m url request w :
  (∃ sts, queries (dispatch (Message.messageRouter vf) m url request w).2
          = queries w ++ sts ∧ (length sts ≤ 1)%nat)
  ∧ (∃ sts, queries (dispatch (Library.libraryRouter vf) m url request w).2
            = queries w ++ sts ∧ (length sts ≤ 2)%nat).
Proof.
  split; revert w.
  - apply (asks_dispatch 1). unfold Message.messageRouter.
    repeat apply Forall_cons_2; try apply Forall_nil_2;
      cbn [stack]; intros ps;
      repeat apply Forall_cons_2; try apply Forall_nil_2; intros next Hnext;
      unfold_routes; by asks.
  - apply (asks_dispatch 2). unfold Library.libraryRouter.
    repeat apply Forall_cons_2; try apply Forall_nil_2;
      cbn [stack]; intros ps;
      repeat apply Forall_cons_2; try apply Forall_nil_2; intros next Hnext;
      unfold_routes; try (by asks).
    all: apply (asks_try_catch 1 1); [apply (asks_await 0)|]; by asks.
Qed.

(** ** Refusals come first *)

Lemma accepts_send code b :
  code ≠ 400 ∨ b = Message "Name exists" → accepts (send code b).
Proof.
  intros H w (msg & E & Hmsg). injection E as E1 E2.
  destruct H as [?|H]; [done|]. rewrite H in E2. by injection E2 as <-.
Qed.

Lemma accepts_throw e : accepts (throw e).
Proof. by intros w (msg & ? & _). Qed.

Lemma accepts_if (b : bool) m1 m2 : accepts m1 → accepts m2 → accepts (if b then m1 else m2).
Proof. by destruct b. Qed.

Lemma accepts_bind {A} (m : M A) (k : A → M reply) :
  (∀ a, accepts (k a)) → accepts (m ≫= k).
Proof.
  intros Hk w. rewrite run_bind. destruct (m w) as [[a|e] w']; [apply Hk|].
  by intros (msg & ? & _).
Qed.

Lemma accepts_try_catch m h : accepts m → (∀ e, accepts (h e)) → accepts (try_catch m h).
Proof.
  intros Hm Hh w. rewrite run_try_catch. specialize (Hm w).
  destruct (m w) as [[a|e] w']; [done|apply Hh].
Qed.

Lemma refuses_first_accepts m : accepts m → refuses_first m.
Proof. intros Hm w Hr. by destruct (Hm w). Qed.

Lemma refuses_first_send code b : refuses_first (send code b).
Proof. by intros w _. Qed.

Lemma refuses_first_ret r : refuses_first (mret r).
Proof. by intros w _. Qed.

Lemma refuses_first_if (b : bool) m1 m2 :
  refuses_first m1 → refuses_first m2 → refuses_first (if b then m1 else m2).
Proof. by destruct b. Qed.

Lemma refuses_first_bind {A} (m : M A) (k : A → M reply) :
  still m → (∀ a, refuses_first (k a)) → refuses_first (m ≫= k).
Proof.
  intros Hm Hk w. rewrite run_bind. specialize (Hm w).
  destruct (m w) as [[a|e] w']; cbn in Hm; subst w'; [apply Hk|done].
Qed.

Lemma refuses_first_enter layer m : refuses_first m → refuses_first (enter layer;; m).
Proof. intros Hm w. rewrite run_bind. apply (Hm (enter layer w).2). Qed.

Lemma refuses_first_run_stack name i layers request next :
  Forall (λ h : middleware, ∀ next, refuses_first next →
            refuses_first (h request next)) layers →
  refuses_first next → refuses_first (run_stack name i layers request next).
Proof.
  intros Hl Hn. revert i. induction Hl as [|h layers Hh _ IH]; intros i; [done|].
  cbn [run_stack]. apply refuses_first_enter, Hh, IH.
Qed.

Lemma refuses_first_dispatch routes m url request :
  Forall (λ r, ∀ ps,
            Forall (λ h : middleware, ∀ next, refuses_first next →
                      refuses_first (h {| query := query request; params := ps;
                                          body := body request |} next)) (stack r))
    routes →
  refuses_first (dispatch routes m url request).
Proof.
  induction 1 as [|r routes Hr _ IH]; [apply refuses_first_ret|].
  cbn [dispatch]. case_bool_decide; [|done].
  destruct (match_path (path r) url) as [ps|] eqn:E; [|done].
  by apply refuses_first_run_stack; [apply Hr|].
Qed.

Ltac accepts :=
  repeat first
    [ apply accepts_throw
    | apply accepts_send; first [by left | by right]
    | apply accepts_if | apply accepts_try_catch | apply accepts_bind
    | intros ? ].

Ltac refuses_first :=
  repeat first
    [ assumption
    | apply refuses_first_accepts; by accepts
    | apply refuses_first_send | apply refuses_first_ret | apply refuses_first_if
    | apply still_ret | apply still_length_of | apply still_if | apply still_bind
    | apply refuses_first_bind
    | intros ? ].

(** X18. A request is refused for what it carries before anything is
    asked of the database: under both routers, a response 400 with a
    message other than Name exists comes from a request that has sent
    no statement. *)
Theorem refusal_sends_nothing vf m url request w msg :
  msg ≠ "Name exists" →
  ((dispatch (Message.messageRouter vf) m url request w).1 = bad_request msg →
   queries (dispatch (Message.messageRouter vf) m url request w).2 = queries w)
  ∧ ((dispatch (Library.libraryRouter vf) m url request w).1 = bad_request msg →
     queries (dispatch (Library.libraryRouter vf) m url request w).2 = queries w).
Proof.
  intros Hmsg.
  assert (refuses_first (dispatch (Message.messageRouter vf) m url request)
          ∧ refuses_first (dispatch (Library.libraryRouter vf) m url request))
    as [H1 H2].
  { split; apply refuses_first_dispatch;
      [unfold Message.messageRouter|unfold Library.libraryRouter];
      repeat apply Forall_cons_2; try apply Forall_nil_2;
      cbn [stack]; intros ps;
      repeat apply Forall_cons_2; try apply Forall_nil_2; intros next Hnext;
      unfold_routes; by refuses_first. }
  split; intros E; [apply H1|apply H2]; by exists msg.
Qed.

(** ** Books by author *)






Section authors.

Variable vf : validation.


End authors.

Section rating.

Variable vf : validation.

(** X20. [GET /?rating_avg=r], whatever else the query carries: a value
    that [isNumberProvided] rejects is refused with 400 and no statement
    is sent; an accepted value that is a decimal numeral of seven
    characters at most, which is within the range of [numeric] whatever
    its exponent, answers 404 when no book has that rating and otherwise
    200 with the lines of the books that have it. *)
Theorem books_by_rating db q r :
  prop q "rating_avg" = str r → r ≠ "" →
  let run := dispatch (Message.messageRouter vf) GET [] (with_query q) (start db []) in
  (isNumberProvided vf (str r) = false →
     run.1 = bad_request "Invalid or missing rating_avg - please refer to documentation"
     ∧ queries run.2 = [])
  ∧ (isNumberProvided vf (str r) = true → (String.length r ≤ 7)%nat →
     ∀ x, Sql.decimal r = Some x →
       run.1 = match rated x db with
               | [] => not_found "No book associated with this rating_avg was found"
               | bs => lines (book_line <$> bs)
               end).
Proof.
  intros Hq Hr run. subst run. rewrite dispatch_root. cbv zeta.
  cbn [query with_query body].
  unfold Message.GetMessageAuthor, Message.GetMessagePublicationYear. cbv zeta.
  cbn [query]. rewrite Hq.
  assert (truthy (str r) = true) as -> by (cbn; by rewrite bool_decide_false).
  rewrite andb_false_r.
  rewrite run_bind. cbn [enter start store faults queries visited app].
  rewrite andb_false_r. cbn [andb negb].
  rewrite run_bind. cbn [enter start store faults queries visited app].
  rewrite run_bind. cbn [enter start store faults queries visited app].
  unfold Message.mwValidRatingAverageQuery. cbv zeta. cbn [query]. rewrite Hq.
  split.
  - by intros ->.
  - intros -> _ x Hx. rewrite run_bind. cbn [enter start store faults queries visited app].
    unfold Message.RetrieveByRatingAvg. cbn [query]. rewrite Hq.
    rewrite run_try_catch, run_bind.
    rewrite (pool_query_result _ _ _ _
               (Sql.returning (Sql.book_columns <$> rated x db)) db)
      by (cbn [execute Sql.numeric]; by rewrite Hx).
    cbn [rowCount rows Sql.returning].
    rewrite length_fmap, positive_length.
    destruct (rated x db) as [|b bs]; [done|].
    rewrite bool_decide_false by done. cbn [negb].
    unfold lines. by rewrite format_books.
Qed.

End rating.

(** ** An error writes nothing *)

Lemma harmless_moves db m : moves (λ db db', db' = db) m → harmless db m.
Proof. intros Hm w <- resp _ _. by rewrite Hm. Qed.

Lemma harmless_send db code b : harmless db (send code b).
Proof. by intros w <- resp _ _. Qed.

Lemma harmless_ret db r : harmless db (mret r).
Proof. by intros w <- resp _ _. Qed.

Lemma harmless_if db (b : bool) m1 m2 :
  harmless db m1 → harmless db m2 → harmless db (if b then m1 else m2).
Proof. by destruct b. Qed.

Lemma harmless_bind {A} db (m : M A) (k : A → M reply) :
  still m → (∀ a, harmless db (k a)) → harmless db (m ≫= k).
Proof.
  intros Hm Hk w. rewrite run_bind. specialize (Hm w).
  destruct (m w) as [[a|e] w']; cbn in Hm; subst w'; [apply Hk|done].
Qed.

Lemma harmless_enter db layer m : harmless db m → harmless db (enter layer;; m).
Proof. intros Hm w Hw. rewrite run_bind. by apply (Hm (enter layer w).2). Qed.

(** A statement that is refused leaves the rows as they are. *)
Lemma execute_refused st db e db' : execute st db = inl (e, db') → same_rows db db'.
Proof.
  intros H. destruct st; unfold execute in H; repeat case_match; by simplify_eq.
Qed.

(** [pool.query(st).then(k).catch(h)], where [h] sends a response and
    [k] sends one of status 400 or more only when the statement has
    changed no row. *)
Lemma harmless_query db st (k : result → M reply) h :
  (∀ e w, ∃ resp, h e w = (Ok (Sent resp), w)) →
  (∀ r db' w, execute st db = inr (r, db') →
     ∃ resp, k r w = (Ok (Sent resp), w) ∧ (400 ≤ status resp → same_rows db db')) →
  harmless db (try_catch (pool_query st ≫= k) h).
Proof.
  intros Hh Hk w <- resp. rewrite run_try_catch, run_bind. unfold pool_query.
  destruct (head (faults w)) as [[e|]|].
  - by destruct (Hh (DatabaseError e)
                   {| store := store w; faults := tail (faults w);
                      queries := queries w ++ [st]; visited := visited w |})
      as [resp' ->].
  - destruct (execute st (store w)) as [[e db']|[r db']] eqn:E.
    + destruct (Hh (DatabaseError e)
                  {| store := db'; faults := tail (faults w);
                     queries := queries w ++ [st]; visited := visited w |})
        as [resp' ->].
      intros _ _. by apply (execute_refused st _ e).
    + destruct (Hk r db'
                  {| store := db'; faults := tail (faults w);
                     queries := queries w ++ [st]; visited := visited w |} eq_refl)
        as (resp' & -> & Hresp).
      intros [= <-] Hs. by apply Hresp.
  - destruct (execute st (store w)) as [[e db']|[r db']] eqn:E.
    + destruct (Hh (DatabaseError e)
                  {| store := db'; faults := tail (faults w);
                     queries := queries w ++ [st]; visited := visited w |})
        as [resp' ->].
      intros _ _. by apply (execute_refused st _ e).
    + destruct (Hk r db'
                  {| store := db'; faults := tail (faults w);
                     queries := queries w ++ [st]; visited := visited w |} eq_refl)
        as (resp' & -> & Hresp).
      intros [= <-] Hs. by apply Hresp.
Qed.

Lemma harmless_run_stack db name i layers request next :
  Forall (λ h : middleware, ∀ next, harmless db next →
            harmless db (h request next)) layers →
  harmless db next → harmless db (run_stack name i layers request next).
Proof.
  intros Hl Hn. revert i. induction Hl as [|h layers Hh _ IH]; intros i; [done|].
  cbn [run_stack]. apply harmless_enter, Hh, IH.
Qed.

Lemma harmless_dispatch db routes m url request :
  Forall (λ r, ∀ ps, match_path (path r) url = Some ps →
            Forall (λ h : middleware, ∀ next, harmless db next →
                      harmless db (h {| query := query request; params := ps;
                                        body := body request |} next)) (stack r))
    routes →
  harmless db (dispatch routes m url request).
Proof.
  induction 1 as [|r routes Hr _ IH]; [apply harmless_ret|].
  cbn [dispatch]. case_bool_decide; [|done].
  destruct (match_path (path r) url) as [ps|] eqn:E; [|done].
  by apply harmless_run_stack; [apply Hr|].
Qed.

(** The statements that change a row return it. *)
Lemma one_row_deleted (ds : list demo) n :
  NoDup (name <$> ds) →
  length (List.filter (λ d, bool_decide (name d = n)) ds) ≠ 1%nat →
  List.filter (λ d, negb (bool_decide (name d = n))) ds = ds.
Proof.
  intros Hnd Hlen. apply filter_not_named_none. intros d Hd <-.
  by rewrite (filter_key name) in Hlen.
Qed.

Lemma no_row_of_priority (ds : list demo) z :
  List.filter (λ d, priority d =? z) ds = [] →
  List.filter (λ d, negb (priority d =? z)) ds = ds.
Proof.
  induction ds as [|d ds IH]; [done|]. cbn [List.filter].
  destruct (priority d =? z); [done|]. intros H. cbn [negb]. by rewrite IH.
Qed.

Ltac statement_cases E :=
  unfold execute in E;
  repeat match type of E with
         | context [match ?x with _ => _ end] => destruct x eqn:?
         end;
  simplify_eq.

Ltac harmless_read :=
  solve [ apply harmless_moves; moves;
          by apply leaves_reads ].

Ltac harmless_checks :=
  repeat first
    [ assumption
    | apply harmless_send | apply harmless_ret | apply harmless_if
    | harmless_read
    | apply harmless_bind;
      [ solve [ repeat first [ apply still_ret | apply still_length_of | apply still_if
                             | apply still_bind; [|intros ?] ] ]
      | intros ? ] ].

(** X21. A response of status 400 or more means that no row was
    written: whatever the request and whatever the connection does,
    when a router answers 400, 404 or 500 the rows of [Demo] and of
    [BOOKS] are those of before the request.  (The sequence of keys may
    have moved: an [INSERT] refused for its name has used one.)  Names
    are unique in the table. *)
Theorem errors_write_nothing vf m url request db fs resp :
  NoDup (name <$> Demo db) → 400 ≤ status resp →
  let message := dispatch (Message.messageRouter vf) m url request (start db fs) in
  let library := dispatch (Library.libraryRouter vf) m url request (start db fs) in
  (message.1 = Ok (Sent resp) →
   Demo (store message.2) = Demo db ∧ BOOKS (store message.2) = BOOKS db)
  ∧ (library.1 = Ok (Sent resp) →
     Demo (store library.2) = Demo db ∧ BOOKS (store library.2) = BOOKS db).
Proof.
  intros Hnd Hs message library. subst message library.
  assert (PreOrder (λ db db' : database, db' = db)) as HR
    by (split; [by intros ?|by intros ??? -> ->]).
  assert (harmless db (dispatch (Message.messageRouter vf) m url request)
          ∧ harmless db (dispatch (Library.libraryRouter vf) m url request))
    as [H1 H2]; [|split; intros E; [by apply (H1 (start db fs) eq_refl resp)
                                   |by apply (H2 (start db fs) eq_refl resp)]].
  split; apply harmless_dispatch;
    [unfold Message.messageRouter|unfold Library.libraryRouter];
    repeat apply Forall_cons_2; try apply Forall_nil_2;
    cbn [path stack]; intros ps Hps;
    repeat apply Forall_cons_2; try apply Forall_nil_2; intros next Hnext;
    unfold_routes; harmless_checks;
    (apply harmless_query; [intros e w; repeat case_match; by eexists|]).
  all: intros r db' w E.
  (* POST / *)
  1,5: statement_cases E;
       cbn [row0 rows Sql.returning]; rewrite run_bind; cbn [mret M_ret];
       eexists; split; [reflexivity|cbn [status]; lia].
  (* PUT / *)
  - statement_cases E.
    cbn [rowCount rows Sql.returning]. rewrite !length_fmap, one_row.
    case_bool_decide as Hlen.
    + destruct (List.filter _ (Demo db)) as [|d ds]; [done|].
      cbn [fmap list_fmap row0 rows]. rewrite run_bind. cbn [mret M_ret].
      eexists. split; [reflexivity|cbn [status]; lia].
    + eexists. split; [reflexivity|]. intros _.
      rewrite (list_fmap_ext _ id (Demo db)), list_fmap_id;
        [by rewrite set_Demo_same|].
      intros i d Hd. case_bool_decide as Hn; [|done].
      destruct Hlen. apply list_elem_of_lookup_2 in Hd.
      subst. by rewrite (filter_key name).
  (* DELETE /?priority= *)
  - statement_cases E.
    cbn [rowCount rows Sql.returning]. rewrite !length_fmap, positive_length.
    case_bool_decide as Hnone; cbn [negb].
    + eexists. split; [reflexivity|]. intros _.
      rewrite no_row_of_priority by done. by rewrite set_Demo_same.
    + eexists. split; [reflexivity|cbn [status]; lia].
  (* DELETE /:name *)
  - statement_cases E.
    cbn [rowCount rows Sql.returning]. rewrite !length_fmap, one_row.
    case_bool_decide as Hlen.
    + destruct (List.filter _ (Demo db)) as [|d ds]; [done|].
      cbn [fmap list_fmap row0 rows]. rewrite run_bind. cbn [mret M_ret].
      eexists. split; [reflexivity|cbn [status]; lia].
    + eexists. split; [reflexivity|]. intros _.
      rewrite one_row_deleted by done. by rewrite set_Demo_same.
  - statement_cases E.
    cbn [rowCount rows Sql.returning]. rewrite !length_fmap, one_row.
    case_bool_decide as Hlen.
    + destruct (List.filter _ (Demo db)) as [|d ds]; [done|].
      cbn [fmap list_fmap row0 rows]. rewrite run_bind. cbn [mret M_ret].
      eexists. split; [reflexivity|cbn [status]; lia].
    + eexists. split; [reflexivity|]. intros _.
      rewrite one_row_deleted by done. by rewrite set_Demo_same.
Qed.

(** ** Names that exist, names that do not *)

Section names.

Variable vf : validation.



(** X24. [PUT /] asks for a name and a message and for nothing else: a
    body that lacks one of them is refused with 400 before the database
    is asked, and a priority in the body is never read, so that the
    request runs as it does without it. *)
Theorem put_reads_name_and_message db fs request v :
  (¬ named vf (body request) →
     dispatch (Message.messageRouter vf) PUT [] request (start db fs) =
     (bad_request "Missing required information - please refer to documentation",
      entered db fs [("PutMessage", 0%nat)]))
  ∧ dispatch (Message.messageRouter vf) PUT []
      {| query := query request; params := params request;
         body := <["priority" := v]> (body request) |} (start db fs) =
    dispatch (Message.messageRouter vf) PUT [] request (start db fs).
Proof.
  split.
  - intros Hno. rewrite <- named_check in Hno. apply not_true_is_false in Hno.
    rewrite dispatch_PutMessage. cbv zeta. unfold Message.mwValidNameMessageBody.
    rewrite run_bind. cbn [enter body]. by rewrite Hno.
  - rewrite !dispatch_PutMessage. cbv zeta.
    unfold Message.mwValidNameMessageBody, Message.PutMessage. cbn [body query].
    unfold prop. by rewrite !lookup_insert_ne.
Qed.

End names.

(** ** The properties on the shelf

    Each property above is applied to the three messages and the book of
    [shelf], with the predicates of [utilities]. *)

Lemma shelf_names_unique : NoDup (name <$> Demo shelf).
Proof. by apply (bool_decide_unpack _). Qed.

Lemma shelf_members d : d ∈ Demo shelf → d = bob ∨ d = cy ∨ d = ann.
Proof.
  intros Hd. repeat (apply elem_of_cons in Hd as [->|Hd]); auto. by inversion Hd.
Qed.

Example cursor_on_shelf :
  (dispatch (Library.libraryRouter utilities) GET ["cursor"]
     (with_query {[ "limit" := str "2"; "cursor" := str "1" ]}) (start shelf [])).1 =
  Ok (Sent {|
    status := 200;
    sent :=
      Page [ Obj {[ "name" := str "bob"; "message" := str "yo"; "priority" := num 1;
                    "formatted" := str "{1} - [bob] says: yo" ]};
             Obj {[ "name" := str "cy"; "message" := str "hey"; "priority" := num 2;
                    "formatted" := str "{2} - [cy] says: hey" ]} ]
        {[ "totalRecords" := str "3"; "limit" := num 2; "cursor" := num 3 ]} |}).
Proof. vm_compute. reflexivity. Qed.

(** [nextPage] is the sum of limit and offset, past the size of the table. *)
Example offset_on_shelf :
  (dispatch (Library.libraryRouter utilities) GET ["offset"]
     (with_query {[ "limit" := str "2"; "offset" := str "2" ]}) (start shelf [])).1 =
  Ok (Sent {|
    status := 200;
    sent :=
      Page [ Obj {[ "name" := str "cy"; "message" := str "hey"; "priority" := num 2;
                    "formatted" := str "{2} - [cy] says: hey" ]} ]
        {[ "totalRecords" := str "3"; "limit" := num 2; "offset" := num 2;
           "nextPage" := num 4 ]} |}).
Proof. vm_compute. reflexivity. Qed.

(** A limit that is not positive and an offset that is no number are
    read as 10 and 0. *)
Example defaults_on_shelf :
  (dispatch (Library.libraryRouter utilities) GET ["offset"]
     (with_query {[ "limit" := str "-2"; "offset" := str "x" ]}) (start shelf [])).1 =
  (dispatch (Library.libraryRouter utilities) GET ["offset"]
     (with_query {[ "limit" := str "10"; "offset" := str "0" ]}) (start shelf [])).1.
Proof. vm_compute. reflexivity. Qed.

(** Two filters, one of them a numeric rating_avg: the rating_avg handler
    answers. *)
Example two_filters_on_shelf :
  visited (dispatch (Message.messageRouter utilities) GET []
             (with_query {[ "authors" := str "Herbert"; "rating_avg" := str "4" ]})
             (start shelf [])).2 = by_rating.
Proof. vm_compute. reflexivity. Qed.






Lemma created_entry_witness :
  (dispatch (Message.messageRouter utilities) POST []
     (with_body {[ "name" := str "dan"; "message" := str "hello"; "priority" := num 1 ]})
     (start shelf [])).1 =
  Ok (Sent {| status := 201; sent := Entry (Text no_book) |}).
Proof.
  destruct (created_entry utilities shelf "dan" "hello" 1) as [H _];
    [reflexivity|reflexivity|reflexivity|lia| |exact H].
  intros d [->|[->| ->]]%shelf_members; discriminate.
Defined.

Lemma deleted_entry_witness :
  (dispatch (Message.messageRouter utilities) DELETE ["ann"] no_fields (start shelf [])).1 =
  Ok (Sent {| status := 200; sent := Entry (Text ("Deleted: " +:+ no_book)) |}).
Proof.
  destruct (deleted_entry utilities shelf ann) as [H _]; [..|exact H].
  - discriminate.
  - simpl. lia.
  - apply shelf_names_unique.
  - do 2 apply list_elem_of_further. apply list_elem_of_here.
Defined.

Lemma updated_entry_witness :
  (dispatch (Message.messageRouter utilities) PUT []
     (with_body {[ "name" := str "ann"; "message" := str "bye" ]}) (start shelf [])).1 =
  Ok (Sent {| status := 200; sent := Entry (Text ("Updated: " +:+ no_book)) |}).
Proof.
  pose proof (updated_entry utilities shelf ann "bye") as H.
  cbv zeta in H. change (name ann) with "ann" in H.
  rewrite H; [reflexivity|reflexivity|reflexivity|apply shelf_names_unique|].
  do 2 apply list_elem_of_further. apply list_elem_of_here.
Defined.

Lemma book_by_isbn13_witness :
  (dispatch (Message.messageRouter utilities) GET ["isbn13"; "9780441013593"] no_fields
     (start shelf [])).1 =
  Ok (Sent {| status := 200; sent := Entry (Obj (Sql.book_columns dune)) |})
  ∧ (dispatch (Message.messageRouter utilities) GET ["isbn13"; "9780000000000"] no_fields
       (start shelf [])).1 =
    not_found "No book associated with this isbn13 was found"
  ∧ dispatch (Message.messageRouter utilities) GET ["isbn13"; "dune"] no_fields
      (start shelf []) =
    (bad_request "Invalid or missing isbn13 - please refer to documentation",
     entered shelf [] [("GetMessageIsbn", 0%nat)]).
Proof.
  split; [|split].
  - destruct (book_by_isbn13 utilities shelf "9780441013593") as (_ & _ & H);
      [discriminate|].
    destruct (H dune) as [E _]; [by split| |apply list_elem_of_here|reflexivity|exact E].
    by apply (bool_decide_unpack _).
  - destruct (book_by_isbn13 utilities shelf "9780000000000") as (_ & H & _);
      [discriminate|].
    apply H; [by split|].
    intros b [->|Hb]%elem_of_cons; [discriminate|by inversion Hb].
  - destruct (book_by_isbn13 utilities shelf "dune") as (H & _ & _); [discriminate|].
    apply H. by intros [[=] _].
Defined.

(** The parameter -978044101359 is no string of 13 digits; it is a
    number of 13 characters, passes the check and is looked up: the
    answer is 404. *)
Lemma signed_isbn13_is_looked_up :
  digits_only "-978044101359" = false
  ∧ isNumberProvided utilities (str "-978044101359") = true
  ∧ String.length "-978044101359" = 13%nat
  ∧ dispatch (Message.messageRouter utilities) GET ["isbn13"; "-978044101359"] no_fields
      (start shelf []) =
    (not_found "No book associated with this isbn13 was found",
     {| store := shelf; faults := [];
        queries := [SelectBooksByIsbn13 (str "-978044101359")];
        visited := [("GetMessageIsbn", 0%nat); ("GetMessageIsbn", 1%nat)] |}).
Proof. repeat split; vm_compute; reflexivity. Qed.

Lemma root_get_routes_witness :
  dispatch (Message.messageRouter utilities) GET []
    (with_query {[ "priority" := str "1" ]}) (start shelf []) =
  (bad_request "Invalid or missing rating_avg - please refer to documentation",
   entered shelf [] rating_check).
Proof.
  destruct (root_get_routes utilities shelf [] {[ "priority" := str "1" ]})
    as (_ & _ & _ & _ & H).
  apply H; by intros [[=] _].
Defined.

(** Two filters, one of them a rating_avg that is a number: the request
    reaches the check of rating_avg and passes it, and the rating_avg
    handler answers, 404 here, not the 400 of the check. *)
Lemma two_filters_pass_rating_check :
  truthy (str "Herbert") = true ∧ truthy (str "4") = true
  ∧ dispatch (Message.messageRouter utilities) GET []
      (with_query {[ "authors" := str "Herbert"; "rating_avg" := str "4" ]})
      (start shelf []) =
    (not_found "No book associated with this rating_avg was found",
     {| store := shelf; faults := [];
        queries := [SelectBooksByRating (str "4")];
        visited := by_rating |}).
Proof. repeat split; vm_compute; reflexivity. Qed.

Lemma shelf_consistent : consistent shelf.
Proof.
  split; [apply shelf_names_unique|]. split; [by apply (bool_decide_unpack _)|].
  repeat constructor; simpl; lia.
Qed.

Lemma requests_keep_consistency_witness :
  consistent
    (store (dispatch (Message.messageRouter utilities) POST []
              (with_body {[ "name" := str "dan"; "message" := str "hello";
                            "priority" := num 1 ]}) (start shelf [])).2).
Proof.
  destruct (requests_keep_consistency utilities POST []
              (with_body {[ "name" := str "dan"; "message" := str "hello";
                            "priority" := num 1 ]}) (start shelf []))
    as [H _]; [apply shelf_consistent|exact H].
Defined.

Lemma rejection_is_translated_witness :
  (dispatch (Message.messageRouter utilities) GET ["all"] no_fields
     (start shelf [Some Sql.failure])).1 = server_failure.
Proof.
  destruct (rejection_is_translated utilities GET ["all"] no_fields Sql.failure
              (start shelf [Some Sql.failure]))
    as [[H _]|(_ & _ & [H|(H & _)])]; [reflexivity|discriminate H|exact H|discriminate H].
Defined.

Lemma library_rejection_is_translated_witness :
  (dispatch (Library.libraryRouter utilities) DELETE ["ann"] no_fields
     (start shelf [Some Sql.failure])).1 = server_failure.
Proof.
  destruct (library_rejection_is_translated utilities DELETE ["ann"] no_fields
              Sql.failure (start shelf [Some Sql.failure]))
    as [[H _]|(_ & _ & [H|(H & _)])];
    [by right|reflexivity|discriminate H|exact H|discriminate H].
Defined.



Lemma books_by_year_witness :
  (dispatch (Message.messageRouter utilities) GET []
     (with_query {[ "publication_year" := str "1965" ]}) (start shelf [])).1 =
  lines ["{Dune} by [Frank Herbert] - ISBN: [9780441013593], published in [1965], average rating: [4.25]"].
Proof.
  destruct (books_by_year utilities shelf {[ "publication_year" := str "1965" ]} "1965")
    as [_ H]; [by repeat split|reflexivity|].
  destruct H as [_ H]; [reflexivity|reflexivity|].
  by apply (H 1965).
Defined.



Lemma deleted_then_gone_witness :
  let db' :=
    store (dispatch (Message.messageRouter utilities) DELETE ["ann"] no_fields
             (start shelf [])).2 in
  (dispatch (Message.messageRouter utilities) DELETE ["ann"] no_fields
     (start db' [])).1 = not_found "Name not found".
Proof.
  destruct (deleted_then_gone utilities shelf ann) as (_ & _ & _ & _ & [H _] & _);
    [discriminate|apply shelf_names_unique| |exact H].
  do 2 apply list_elem_of_further. apply list_elem_of_here.
Defined.

Lemma deleted_by_priority_witness :
  ∃ es,
    (dispatch (Message.messageRouter utilities) DELETE []
       (with_query {[ "priority" := str "2" ]}) (start shelf [])).1 =
    Ok (Sent {| status := 200; sent := Entries es |})
    ∧ length es = 2%nat.
Proof.
  destruct (deleted_by_priority utilities shelf {[ "priority" := str "2" ]} (str "2") 2)
    as (_ & H & _); [reflexivity| |reflexivity|].
  { split; [reflexivity|]. exists 2. split; [reflexivity|lia]. }
  destruct H as (es & E & L).
  { exists ann. split; [|reflexivity].
    do 2 apply list_elem_of_further. apply list_elem_of_here. }
  exists es. split; [exact E|].
  match type of L with
  | (_ + ?n = _)%nat => replace n with 1%nat in L by (vm_compute; reflexivity)
  end.
  change (length (Demo shelf)) with 3%nat in L. lia.
Defined.



Lemma refusal_sends_nothing_witness :
  queries (dispatch (Message.messageRouter utilities) DELETE []
             (with_query {[ "priority" := str "7" ]}) (start shelf [])).2 = [].
Proof.
  destruct (refusal_sends_nothing utilities DELETE []
              (with_query {[ "priority" := str "7" ]}) (start shelf [])
              "Invalid or missing Priority - please refer to documentation")
    as [H _]; [discriminate|].
  apply H. reflexivity.
Defined.


Lemma books_by_rating_witness :
  (dispatch (Message.messageRouter utilities) GET []
     (with_query {[ "authors" := str "Herbert"; "rating_avg" := str "4" ]})
     (start shelf [])).1 =
  not_found "No book associated with this rating_avg was found".
Proof.
  destruct (books_by_rating utilities shelf
              {[ "authors" := str "Herbert"; "rating_avg" := str "4" ]} "4")
    as [_ H]; [reflexivity|discriminate|].
  apply (H eq_refl ltac:(simpl; lia) (4, 1)). reflexivity.
Defined.

Lemma errors_write_nothing_witness :
  let after :=
    store (dispatch (Message.messageRouter utilities) POST []
             (with_body {[ "name" := str "ann"; "message" := str "again";
                           "priority" := num 3 ]}) (start shelf [])).2 in
  Demo after = Demo shelf ∧ BOOKS after = BOOKS shelf.
Proof.
  destruct (errors_write_nothing utilities POST []
              (with_body {[ "name" := str "ann"; "message" := str "again";
                            "priority" := num 3 ]}) shelf []
              {| status := 400; sent := Message "Name exists" |})
    as [H _]; [apply shelf_names_unique|simpl; lia|].
  apply H. reflexivity.
Defined.



Lemma put_reads_name_and_message_witness :
  dispatch (Message.messageRouter utilities) PUT []
    (with_body {[ "name" := str "ann" ]}) (start shelf []) =
  (bad_request "Missing required information - please refer to documentation",
   entered shelf [] [("PutMessage", 0%nat)]).
Proof.
  destruct (put_reads_name_and_message utilities shelf []
              (with_body {[ "name" := str "ann" ]}) undefined) as [H _].
  apply H. by intros [_ [=]].
Defined.
